(** * server.js: the collector service, embedded and verified

    A shallow embedding of [server.js]: the Express handlers
    [POST /api/run-collector] and [GET /download/:filename], together with
    the parts of the Node platform they call ([path.join], [path.basename],
    [fs.existsSync], [fs.unlinkSync], [child_process.exec]).

    Conventions.
    - A JavaScript string is a [string] of bytes (its UTF-8 encoding; half
      a character, where a cut leaves one, is written as the three bytes
      of its own code).
    - Request fields are JSON scalars ([jsval]); nested arrays and objects
      are outside the model. A number is kept as what the handler can see
      of it: whether it is zero, and the text a template literal gives.
    - Paths follow Node's POSIX flavour of the [path] module.
    - The file system is a finite map from the path strings handed to the
      [fs] functions to what lives there (nothing lives at a path with a
      NUL character, or at the path of a file followed by a separator).
    - The handler of [POST /api/run-collector] runs in three stages, as the
      event loop runs it: the synchronous body (lines 20-43), the [data]
      listeners (lines 65-71), and the completion callback (lines 43-62).
    - [exec] is called with its default options: it refuses a command line
      with a NUL character, and it holds at most 1 MiB of each stream.
    - The handlers are modelled from the request that reaches them: what
      [express.json()] and [express.static] answer on their own is not. *)

From Stdlib Require Import ZArith Lia Bool Ascii String.
From stdpp Require Import gmap strings list fin_maps pretty.

Open Scope string_scope.
Open Scope list_scope.

(* ===================================================================== *)
(** ** JavaScript values of a parsed JSON body                            *)
(* ===================================================================== *)

Module JS.

(** A JSON number, as far as the handler can tell one from another:
    [if (n)] sees whether it is zero, [`${n}`] sees its text (["3"],
    ["1.5"], ["1e+21"]). *)
Record number : Type := {
  is_zero : bool;
  text : string
}.

(** The integer [z], for [z] of magnitude below 2^53, where JavaScript
    writes every digit. *)
Definition js_int (z : Z) : number :=
  {| is_zero := (z =? 0)%Z; text := pretty z |}.

Inductive jsval : Type :=
  | JUndefined
  | JNull
  | JBool (b : bool)
  | JNum (n : number)
  | JStr (s : string).

(** [!!v]: what [if (v)] and [v ? a : b] test. *)
Definition truthy (v : jsval) : bool :=
  match v with
  | JUndefined | JNull => false
  | JBool b => b
  | JNum n => negb (is_zero n)
  | JStr s => negb (String.eqb s "")
  end.

(** [`${v}`]: the string a template literal substitutes for [v]. *)
Definition toString (v : jsval) : string :=
  match v with
  | JUndefined => "undefined"
  | JNull => "null"
  | JBool true => "true"
  | JBool false => "false"
  | JNum n => text n
  | JStr s => s
  end.

(** [a || b] on strings read from the environment. *)
Definition or_default (v : option string) (d : string) : string :=
  match v with
  | Some s => if String.eqb s "" then d else s
  | None => d
  end.

End JS.
Export JS.

(* ===================================================================== *)
(** ** Node's [path] module (POSIX)                                       *)
(* ===================================================================== *)

Module Path.

Definition slash : ascii := "/"%char.

(** [s.split("/")]: never empty, ["a//b"] gives ["a"; ""; "b"]. *)
Fixpoint split_slash (s : string) : list string :=
  match s with
  | EmptyString => [EmptyString]
  | String c s' =>
      if Ascii.eqb c slash then EmptyString :: split_slash s'
      else match split_slash s' with
           | [] => [String c EmptyString]
           | seg :: rest => String c seg :: rest
           end
  end.

(** [segs.join("/")]. *)
Fixpoint join_slash (segs : list string) : string :=
  match segs with
  | [] => ""
  | [seg] => seg
  | seg :: rest => seg +:+ "/" +:+ join_slash rest
  end.

Definition is_dot (seg : string) : bool := String.eqb seg ".".
Definition is_dotdot (seg : string) : bool := String.eqb seg "..".
Definition is_empty (seg : string) : bool := String.eqb seg "".

(** One segment of [normalizeString]; [stack] holds the segments kept so
    far, the last one first. *)
Definition push_segment (allowAboveRoot : bool) (stack : list string)
    (seg : string) : list string :=
  if is_empty seg || is_dot seg then stack
  else if is_dotdot seg then
    match stack with
    | top :: below =>
        if is_dotdot top
        then (if allowAboveRoot then seg :: stack else stack)
        else below
    | [] => if allowAboveRoot then [seg] else []
    end
  else seg :: stack.

(** [normalizeString(path, allowAboveRoot, "/", isPosixPathSeparator)],
    as the list of segments it keeps. *)
Definition normalize_segments (allowAboveRoot : bool) (segs : list string)
    : list string :=
  rev (fold_left (push_segment allowAboveRoot) segs []).

Definition starts_with_slash (p : string) : bool :=
  match p with
  | String c _ => Ascii.eqb c slash
  | EmptyString => false
  end.

Fixpoint ends_with_slash (p : string) : bool :=
  match p with
  | EmptyString => false
  | String c EmptyString => Ascii.eqb c slash
  | String _ p' => ends_with_slash p'
  end.

(** [path.normalize(p)]. *)
Definition normalize (p : string) : string :=
  if is_empty p then "."
  else
    let isAbsolute := starts_with_slash p in
    let trailingSeparator := ends_with_slash p in
    let body := join_slash (normalize_segments (negb isAbsolute) (split_slash p)) in
    if is_empty body then
      (if isAbsolute then "/" else if trailingSeparator then "./" else ".")
    else
      let body' := if trailingSeparator then body +:+ "/" else body in
      if isAbsolute then "/" +:+ body' else body'.

(** [path.join(a, b)] on two strings. *)
Definition join (a b : string) : string :=
  match is_empty a, is_empty b with
  | true, true => "."
  | true, false => normalize b
  | false, true => normalize a
  | false, false => normalize (a +:+ "/" +:+ b)
  end.

(** [path.basename(p)]: the last non-empty segment, [""] when there is
    none. *)
Definition basename (p : string) : string :=
  default "" (last (filter (fun seg => seg ≠ "") (split_slash p))).

(** The segments that name a path: what is left of an absolute path once
    it is normalised. *)
Definition segments (p : string) : list string :=
  normalize_segments (negb (starts_with_slash p)) (split_slash p).

Fixpoint is_prefix_of (xs ys : list string) : bool :=
  match xs, ys with
  | [], _ => true
  | x :: xs', y :: ys' => String.eqb x y && is_prefix_of xs' ys'
  | _ :: _, [] => false
  end.

(** [inside root p]: the absolute path [p] names the root directory or
    something below it. *)
Definition inside (root p : string) : bool :=
  starts_with_slash p && is_prefix_of (segments root) (segments p).

(** A segment that names an entry: not empty, not [.], not [..], no
    separator in it. *)
Definition plain (seg : string) : Prop :=
  seg ≠ "" ∧ seg ≠ "." ∧ seg ≠ ".." ∧ split_slash seg = [seg].

(** The absolute normalised path with the given segments. *)
Definition absolute (segs : list string) : string := "/" +:+ join_slash segs.

(** A segment [normalizeString] keeps when no [..] is around. *)
Definition kept (seg : string) : Prop := seg ≠ "" ∧ seg ≠ ".".

#[global] Instance kept_dec seg : Decision (kept seg).
Proof. unfold kept. apply _. Defined.

End Path.

(* ===================================================================== *)
(** ** Characters that a Rocq literal cannot hold                         *)
(* ===================================================================== *)

(** The double quote and the line feed of the JavaScript literals. *)
Definition dq : string := String "034"%char "".
Definition nl : string := String "010"%char "".

(* ===================================================================== *)
(** ** Node's [fs] module                                                 *)
(* ===================================================================== *)

Module Fs.

Inductive entry : Type :=
  | File (content : string)
  | Directory.

Abbreviation t := (gmap string entry).

(** What the handlers ask of the file system, in program order. *)
Inductive op : Type :=
  | OpExists (p : string)
  | OpUnlink (p : string)
  | OpSend (p : string).

Definition touched (o : op) : string :=
  match o with OpExists p | OpUnlink p | OpSend p => p end.

(** [fs.existsSync(p)]. *)
Definition existsSync (fs : t) (p : string) : bool :=
  match fs !! p with Some _ => true | None => false end.

(** [fs.unlinkSync(p)]: removes a file; throws on a directory and on a
    missing entry. *)
Definition unlinkSync (fs : t) (p : string) : t + string :=
  match fs !! p with
  | Some (File _) => inl (delete p fs)
  | Some Directory => inr "EISDIR"
  | None => inr "ENOENT"
  end.

End Fs.

(* ===================================================================== *)
(** ** Node's [child_process] module                                      *)
(* ===================================================================== *)

Module Child.

(** How a program can be started: [exec] hands one command line to the
    shell, [execFile] and [spawn] hand a file and its arguments to the
    system. [server.js] imports [exec] only. *)
Inductive invocation : Type :=
  | Exec (command : string)
  | ExecFile (file : string) (args : list string).

Inductive stream : Type := Stdout | Stderr.

Definition stream_eqb (a b : stream) : bool :=
  match a, b with
  | Stdout, Stdout | Stderr, Stderr => true
  | _, _ => false
  end.

Definition stream_name (s : stream) : string :=
  match s with Stdout => "stdout" | Stderr => "stderr" end.

Inductive exit_status : Type :=
  | ExitCode (n : Z)
  | Signalled (sig : string).

#[global] Instance exit_status_eq_dec : EqDecision exit_status.
Proof. solve_decision. Defined.

(** What happened to the command, as the world knows it. *)
Inductive behaviour : Type :=
  | ShellNotSpawned (errno : string)
      (** [/bin/sh] itself could not be started, for one of the reasons
          [spawn] reports through the callback ([ENOENT], [EACCES],
          [EAGAIN]) *)
  | InterpreterNotLaunched (diag : string)
      (** the shell ran and could not start the interpreter: it writes its
          diagnostic on stderr and exits with status 127 *)
  | Ran (chunks : list (stream * string)) (status : exit_status)
      (** the program ran, writing [chunks] in this order, and ends with
          [status] if it is left to *).

Inductive err_code : Type :=
  | CodeExit (n : Z)
  | CodeErrno (name : string)
  | CodeNone.

(** The [Error] object of the completion callback. *)
Record exec_error : Type := {
  message : string;
  code : err_code;
  killed : bool;
  signal : option string
}.

(** [exec] is called without options: each stream may hold
    [maxBuffer] = 1024 * 1024 bytes. *)
Definition max_buffer : N := 1048576.

(** [Buffer.byteLength(chunk, "utf8")]. *)
Definition byte_length (s : string) : N := N.of_nat (String.length s).

Definition byte (c : ascii) : N := N_of_ascii c.

(** Half a character: the first UTF-16 unit of the character that the four
    bytes encode, written as the three bytes of that unit's own code. *)
Definition high_surrogate (b0 b1 b2 b3 : N) : string :=
  let point := ((b0 mod 8) * 262144 + (b1 mod 64) * 4096 + (b2 mod 64) * 64 + b3 mod 64)%N in
  let unit := (55296 + (point - 65536) / 1024)%N in
  String (ascii_of_N 237)
    (String (ascii_of_N (128 + (unit / 64) mod 64))
       (String (ascii_of_N (128 + unit mod 64)) "")).

(** The first [units] UTF-16 units of a string; [pending] counts the
    bytes still to copy of the character being copied. *)
Fixpoint slice_units (units : N) (pending : nat) (s : string) : string :=
  match s with
  | EmptyString => ""
  | String c rest =>
      match pending with
      | S k => String c (slice_units units k rest)
      | O =>
          if (units =? 0)%N then ""
          else if (byte c <? 192)%N then String c (slice_units (units - 1) 0 rest)
          else if (byte c <? 224)%N then String c (slice_units (units - 1) 1 rest)
          else if (byte c <? 240)%N then String c (slice_units (units - 1) 2 rest)
          else if (units =? 1)%N then
            match rest with
            | String c1 (String c2 (String c3 _)) =>
                high_surrogate (byte c) (byte c1) (byte c2) (byte c3)
            | _ => String c rest
            end
          else String c (slice_units (units - 2) 3 rest)
      end
  end.

(** [chunk.slice(0, units)]. *)
Definition js_slice (units : N) (s : string) : string := slice_units units 0 s.

(** What the command writes. *)
Definition written (b : behaviour) : list (stream * string) :=
  match b with
  | ShellNotSpawned _ => []
  | InterpreterNotLaunched diag => [(Stderr, diag)]
  | Ran chunks _ => chunks
  end.

(** The stream whose chunk first takes the bytes [exec] has counted for
    it ([out], [err]) beyond [max_buffer], if any. *)
Fixpoint overflow (out err : N) (chunks : list (stream * string)) : option stream :=
  match chunks with
  | [] => None
  | (Stdout, data) :: rest =>
      if (out + byte_length data <=? max_buffer)%N
      then overflow (out + byte_length data) err rest else Some Stdout
  | (Stderr, data) :: rest =>
      if (err + byte_length data <=? max_buffer)%N
      then overflow out (err + byte_length data) rest else Some Stderr
  end.

(** A run whose output [exec] can hold. *)
Definition within_max_buffer (chunks : list (stream * string)) : Prop :=
  overflow 0 0 chunks = None.

(** The chunks that reach the listeners: all of them up to the one that
    overflows, that one included; [exec] then destroys both streams and
    kills the child. *)
Fixpoint delivered (out err : N) (chunks : list (stream * string))
    : list (stream * string) :=
  match chunks with
  | [] => []
  | (Stdout, data) :: rest =>
      if (out + byte_length data <=? max_buffer)%N
      then (Stdout, data) :: delivered (out + byte_length data) err rest
      else [(Stdout, data)]
  | (Stderr, data) :: rest =>
      if (err + byte_length data <=? max_buffer)%N
      then (Stderr, data) :: delivered out (err + byte_length data) rest
      else [(Stderr, data)]
  end.

(** The [data] events the listeners see, in arrival order. *)
Definition data_events (b : behaviour) : list (stream * string) :=
  delivered 0 0 (written b).

Definition status_of (b : behaviour) : option exit_status :=
  match b with
  | ShellNotSpawned _ => None
  | InterpreterNotLaunched _ => Some (ExitCode 127)
  | Ran _ st => Some st
  end.

(** The buffer [exec] keeps for one stream while [room] bytes are left in
    it: every chunk of that stream, the overflowing one cut to the room
    that was left. *)
Fixpoint buffered_from (room : N) (s : stream) (evs : list (stream * string)) : string :=
  match evs with
  | [] => ""
  | (s', data) :: rest =>
      if stream_eqb s s' then
        if (byte_length data <=? room)%N
        then data +:+ buffered_from (room - byte_length data) s rest
        else js_slice room data
      else buffered_from room s rest
  end.

Definition buffered (s : stream) (evs : list (stream * string)) : string :=
  buffered_from max_buffer s evs.

Definition command_failed (cmd stderr : string) (st : exit_status) : exec_error :=
  {| message := "Command failed: " +:+ cmd +:+ nl +:+ stderr;
     code := match st with ExitCode n => CodeExit n | Signalled _ => CodeNone end;
     killed := false;
     signal := match st with ExitCode _ => None | Signalled sig => Some sig end |}.

Definition buffer_exceeded (s : stream) : exec_error :=
  {| message := stream_name s +:+ " maxBuffer length exceeded";
     code := CodeErrno "ERR_CHILD_PROCESS_STDIO_MAXBUFFER";
     killed := false;
     signal := None |}.

(** The first argument of the completion callback: the error of the
    spawn; or the error of the overflow, whatever the exit status; or
    [null] after a clean exit and the [Command failed] error after any
    other. *)
Definition error_of (cmd : string) (b : behaviour) : option exec_error :=
  match b with
  | ShellNotSpawned errno =>
      Some {| message := "spawn /bin/sh " +:+ errno;
              code := CodeErrno errno; killed := false; signal := None |}
  | _ =>
      match overflow 0 0 (written b) with
      | Some s => Some (buffer_exceeded s)
      | None =>
          match status_of b with
          | Some (ExitCode 0) | None => None
          | Some st => Some (command_failed cmd (buffered Stderr (data_events b)) st)
          end
      end
  end.

(** Launch failures and run failures, as the specification sorts them. *)
Definition launch_failure (b : behaviour) : Prop :=
  match b with
  | ShellNotSpawned _ | InterpreterNotLaunched _ => True
  | Ran _ _ => False
  end.

Definition run_failure (b : behaviour) : Prop :=
  match b with
  | Ran _ st => st ≠ ExitCode 0
  | _ => False
  end.

End Child.

(* ===================================================================== *)
(** ** [server.js]                                                        *)
(* ===================================================================== *)

Module Server.
Import Child.

(** Lines 12-15: the configuration, read once at start-up. *)
Record config : Type := {
  dirname : string;
  PYTHON_PATH : string;
  PYTHON_SCRIPT : string;
  CSV_FILE : string
}.

Definition load_config (env : gmap string string) (dir : string) : config :=
  {| dirname := dir;
     PYTHON_PATH := or_default (env !! "PYTHON_PATH") "python";
     PYTHON_SCRIPT := or_default (env !! "PYTHON_SCRIPT")
                        (Path.join dir "automated_ad_collector.py");
     CSV_FILE := or_default (env !! "CSV_FILE")
                   (Path.join dir "ad_data_collection.csv") |}.

(** Line 21: the fields read from [req.body]. *)
Record request : Type := {
  url : jsval;
  maxPages : jsval;
  csvFile : jsval;
  headless : jsval
}.

Inductive body : Type :=
  | ErrorJson (error : string)
  | RunJson (success : bool) (logs : string) (download : option string)
  | Attachment (filePath : string)
  | Text (text : string)
  | ErrorPage (err : string)
      (** the page Express writes for an exception that leaves a handler *)
  | NotFoundPage
      (** the page Express writes when what it was told to send cannot be
          sent *).

Record response : Type := { status : Z; payload : body }.

(** Lines 26-28. [path.join] throws on an argument that is not a string. *)
Definition final_csv_file (cfg : config) (req : request) : string + string :=
  if truthy (csvFile req) then
    match csvFile req with
    | JStr name => inl (Path.join (dirname cfg) name)
    | _ => inr "ERR_INVALID_ARG_TYPE"
    end
  else inl (CSV_FILE cfg).

(** Lines 34-36. *)
Definition build_cmd (cfg : config) (req : request) (finalCsvFile : string) : string :=
  let cmd := dq +:+ PYTHON_PATH cfg +:+ dq +:+ " " +:+ dq +:+ PYTHON_SCRIPT cfg +:+ dq
             +:+ " --url " +:+ dq +:+ toString (url req) +:+ dq
             +:+ " --csv-file " +:+ dq +:+ finalCsvFile +:+ dq in
  let cmd := if truthy (maxPages req)
             then cmd +:+ " --max-pages " +:+ toString (maxPages req) else cmd in
  let cmd := if truthy (headless req) then cmd +:+ " --headless" else cmd in
  cmd.

(** [exec] refuses a command line that holds a NUL character: it throws
    before anything is started. *)
Fixpoint contains_nul (s : string) : bool :=
  match s with
  | EmptyString => false
  | String c rest => Ascii.eqb c "000"%char || contains_nul rest
  end.

(** Where the synchronous body of the handler leaves the request. *)
Inductive stage : Type :=
  | Replied (r : response)
  | Thrown (err : string)
  | Running (cmd : string) (finalCsvFile : string).

Record started : Type := {
  next : stage;
  fs_after : Fs.t;
  fs_ops : list Fs.op;
  spawned : list invocation
}.

(** Lines 20-43: validation, removal of the old file, and the call of
    [exec]. *)
Definition run_collector_start (cfg : config) (req : request) (fs : Fs.t) : started :=
  if negb (truthy (url req)) then
    {| next := Replied {| status := 400; payload := ErrorJson "URL is required" |};
       fs_after := fs; fs_ops := []; spawned := [] |}
  else
    match final_csv_file cfg req with
    | inr err => {| next := Thrown err; fs_after := fs; fs_ops := []; spawned := [] |}
    | inl finalCsvFile =>
        let launch fs' ops :=
          let cmd := build_cmd cfg req finalCsvFile in
          if contains_nul cmd then
            {| next := Thrown "ERR_INVALID_ARG_VALUE";
               fs_after := fs'; fs_ops := ops; spawned := [] |}
          else
            {| next := Running cmd finalCsvFile;
               fs_after := fs'; fs_ops := ops; spawned := [Exec cmd] |} in
        if Fs.existsSync fs finalCsvFile then
          match Fs.unlinkSync fs finalCsvFile with
          | inl fs' => launch fs' [Fs.OpExists finalCsvFile; Fs.OpUnlink finalCsvFile]
          | inr err =>
              {| next := Thrown err; fs_after := fs;
                 fs_ops := [Fs.OpExists finalCsvFile; Fs.OpUnlink finalCsvFile];
                 spawned := [] |}
          end
        else launch fs [Fs.OpExists finalCsvFile]
    end.

(** Lines 65-71: either listener appends its chunk to [logs]. *)
Definition on_data (logs : string) (ev : stream * string) : string :=
  logs +:+ snd ev.

Definition live_log (evs : list (stream * string)) : string :=
  fold_left on_data evs "".

Definition nonempty (s : string) : bool := negb (String.eqb s "").

(** Lines 44-45. *)
Definition append_buffers (logs stdout stderr : string) : string :=
  let logs := if nonempty stdout then logs +:+ nl +:+ stdout else logs in
  let logs := if nonempty stderr then logs +:+ nl +:+ stderr else logs in
  logs.

Definition error_signal (e : exec_error) : string := nl +:+ "❌ Error: " +:+ message e.
Definition missing_signal : string := nl +:+ "CSV not generated".

(** Lines 43-62: the completion callback, run on the file system as it is
    when the child has closed. *)
Definition on_complete (finalCsvFile logs : string) (error : option exec_error)
    (stdout stderr : string) (fs : Fs.t) : response * list Fs.op :=
  let logs := append_buffers logs stdout stderr in
  match error with
  | Some e =>
      ({| status := 500; payload := RunJson false (logs +:+ error_signal e) None |}, [])
  | None =>
      if Fs.existsSync fs finalCsvFile then
        ({| status := 200;
            payload := RunJson true logs
                         (Some ("/download/" +:+ Path.basename finalCsvFile)) |},
         [Fs.OpExists finalCsvFile])
      else
        ({| status := 500; payload := RunJson false (logs +:+ missing_signal) None |},
         [Fs.OpExists finalCsvFile])
  end.

(** What the world contributes to one run: what the command did, and the
    file system it leaves behind when it closes. *)
Record run : Type := {
  did : behaviour;
  fs_at_close : Fs.t
}.

(** The response of a started run once the child has closed. *)
Definition run_collector_finish (cmd finalCsvFile : string) (r : run)
    : response * list Fs.op :=
  let evs := data_events (did r) in
  on_complete finalCsvFile (live_log evs) (error_of cmd (did r))
    (buffered Stdout evs) (buffered Stderr evs) (fs_at_close r).

Inductive outcome : Type :=
  | Responds (r : response)
  | Throws (err : string).

(** The whole of [POST /api/run-collector]: [world] tells what the command
    does on the file system it is started on. *)
Definition run_collector (cfg : config) (req : request) (fs : Fs.t)
    (world : string -> Fs.t -> run) : outcome * list Fs.op * list invocation :=
  let st := run_collector_start cfg req fs in
  match next st with
  | Replied r => (Responds r, fs_ops st, spawned st)
  | Thrown err => (Throws err, fs_ops st, spawned st)
  | Running cmd finalCsvFile =>
      let '(r, ops) := run_collector_finish cmd finalCsvFile (world cmd (fs_after st)) in
      (Responds r, fs_ops st ++ ops, spawned st)
  end.

(** What Express answers when an exception leaves the handler: no status
    is set on these errors, so 500 and its error page. *)
Definition answer (o : outcome) : response :=
  match o with
  | Responds r => r
  | Throws err => {| status := 500; payload := ErrorPage err |}
  end.

(** A name [res.download] will not send: longer than one character and
    starting with a dot. *)
Definition is_dotfile (seg : string) : bool :=
  match seg with
  | String c (String _ _) => Ascii.eqb c "."
  | _ => false
  end.

(** [res.download(filePath)]: a regular file is sent as an attachment; a
    file whose name starts with a dot and a directory are not, and the
    client gets Express's 404. Express 4 looks at the last segment of the
    path only; Express 5 refuses a dot directory on the way as well, so
    the theorems that promise a download assume there is none. *)
Definition res_download (fs : Fs.t) (filePath : string) : response :=
  if is_dotfile (Path.basename filePath) then {| status := 404; payload := NotFoundPage |}
  else
    match fs !! filePath with
    | Some (Fs.File _) => {| status := 200; payload := Attachment filePath |}
    | _ => {| status := 404; payload := NotFoundPage |}
    end.

(** Lines 77-84: the handler of [GET /download/:filename]. *)
Definition download_file (cfg : config) (filename : string) (fs : Fs.t)
    : response * list Fs.op :=
  let filePath := Path.join (dirname cfg) filename in
  if Fs.existsSync fs filePath then
    (res_download fs filePath, [Fs.OpExists filePath; Fs.OpSend filePath])
  else
    ({| status := 404; payload := Text "File not found" |}, [Fs.OpExists filePath]).

(** The path of a request target: what stands before the first [?] or
    [#]. *)
Fixpoint request_path (target : string) : string :=
  match target with
  | EmptyString => ""
  | String c rest =>
      if Ascii.eqb c "?" || Ascii.eqb c "#" then "" else String c (request_path rest)
  end.

(** Routes match without regard to case. *)
Definition lower (c : ascii) : ascii :=
  if (65 <=? N_of_ascii c)%N && (N_of_ascii c <=? 90)%N
  then ascii_of_N (N_of_ascii c + 32) else c.

(** What follows the prefix [pre] of the route, [pre] in lower case. *)
Fixpoint strip_prefix (pre s : string) : option string :=
  match pre, s with
  | EmptyString, _ => Some s
  | String a pre', String b s' =>
      if Ascii.eqb a (lower b) then strip_prefix pre' s' else None
  | String _ _, EmptyString => None
  end.

(** The route takes one segment, and lets one separator follow it. *)
Fixpoint route_segment (s : string) : option string :=
  match s with
  | EmptyString => Some ""
  | String c rest =>
      if Ascii.eqb c "/" then
        (if String.eqb rest "" then Some "" else None)
      else option_map (String c) (route_segment rest)
  end.

Definition hex_value (c : ascii) : option N :=
  let n := N_of_ascii c in
  if (48 <=? n)%N && (n <=? 57)%N then Some (n - 48)%N
  else if (65 <=? n)%N && (n <=? 70)%N then Some (n - 55)%N
  else if (97 <=? n)%N && (n <=? 102)%N then Some (n - 87)%N
  else None.

(** The bytes that may follow the first byte of a UTF-8 character, as
    ranges; [None] for a byte that cannot start one. *)
Definition utf8_followers (b : N) : option (list (N * N)) :=
  if (b <? 128)%N then Some []
  else if (b <? 194)%N then None
  else if (b <? 224)%N then Some [(128, 191)]%N
  else if (b =? 224)%N then Some [(160, 191); (128, 191)]%N
  else if (b =? 237)%N then Some [(128, 159); (128, 191)]%N
  else if (b <? 240)%N then Some [(128, 191); (128, 191)]%N
  else if (b =? 240)%N then Some [(144, 191); (128, 191); (128, 191)]%N
  else if (b <? 244)%N then Some [(128, 191); (128, 191); (128, 191)]%N
  else if (b =? 244)%N then Some [(128, 143); (128, 191); (128, 191)]%N
  else None.

(** [decodeURIComponent]: every [%XX] becomes its byte, and the bytes so
    written must be whole UTF-8 characters; [ranges] holds what the
    character being read still needs. [None] stands for [URIError]. *)
Fixpoint decode_uri (ranges : list (N * N)) (s : string) : option string :=
  match s with
  | EmptyString => match ranges with [] => Some "" | _ => None end
  | String c rest =>
      if Ascii.eqb c "%" then
        match rest with
        | String h1 (String h2 rest') =>
            match hex_value h1, hex_value h2 with
            | Some hi, Some lo =>
                let b := (16 * hi + lo)%N in
                match ranges with
                | (low, high) :: more =>
                    if (low <=? b)%N && (b <=? high)%N
                    then option_map (String (ascii_of_N b)) (decode_uri more rest')
                    else None
                | [] =>
                    match utf8_followers b with
                    | Some more => option_map (String (ascii_of_N b)) (decode_uri more rest')
                    | None => None
                    end
                end
            | _, _ => None
            end
        | _ => None
        end
      else
        match ranges with
        | [] => option_map (String c) (decode_uri [] rest)
        | _ => None
        end
  end.

(** A character that every client writes on the request line as it is:
    a letter, a digit, a dot, a dash or an underscore. *)
Definition safe_char (c : ascii) : bool :=
  let n := N_of_ascii c in
  ((48 <=? n)%N && (n <=? 57)%N) || ((65 <=? n)%N && (n <=? 90)%N)
  || ((97 <=? n)%N && (n <=? 122)%N)
  || (n =? 45)%N || (n =? 46)%N || (n =? 95)%N.

(** A name made of such characters only: the target of a request for a
    reference that ends in it is that reference. *)
Fixpoint route_safe (s : string) : bool :=
  match s with
  | EmptyString => true
  | String c rest => safe_char c && route_safe rest
  end.

(** The number of line feeds in a text. *)
Fixpoint line_feeds (s : string) : nat :=
  match s with
  | EmptyString => 0
  | String c rest => (if Ascii.eqb c "010"%char then 1 else 0) + line_feeds rest
  end.

(** The [:filename] parameter Express hands to the handler for a request
    whose target is [reference]: the one segment after [/download/],
    decoded; [None] when the handler is not reached: the route does not
    take the request, or the segment cannot be decoded. *)
Definition download_param (reference : string) : option string :=
  match strip_prefix "/download/" (request_path reference) with
  | Some rest =>
      match route_segment rest with
      | Some seg => if String.eqb seg "" then None else decode_uri [] seg
      | None => None
      end
  | None => None
  end.

(** The listeners as the event loop runs them: one [data] event at a
    time, each handled to completion before the next. *)
Record log_state : Type := {
  pending : list (stream * string);
  logs_so_far : string
}.

Inductive data_step : log_state -> log_state -> Prop :=
  | data_arrives ev rest logs :
      data_step {| pending := ev :: rest; logs_so_far := logs |}
                {| pending := rest; logs_so_far := on_data logs ev |}.

(** The states of [logs] a reader can see while the child writes [evs]. *)
Definition observable (evs : list (stream * string)) (s : log_state) : Prop :=
  rtc data_step {| pending := evs; logs_so_far := "" |} s.

(** Chunks laid end to end. *)
Fixpoint concat_strings (l : list string) : string :=
  match l with
  | [] => ""
  | s :: rest => s +:+ concat_strings rest
  end.

(** The chunks of one stream, in arrival order. *)
Fixpoint chunks_of (s : stream) (evs : list (stream * string)) : list string :=
  match evs with
  | [] => []
  | (s', data) :: rest =>
      if stream_eqb s s' then data :: chunks_of s rest else chunks_of s rest
  end.

(** What lines 44-45 add to [logs]. *)
Definition buffer_copy (buffer : string) : string :=
  if nonempty buffer then nl +:+ buffer else "".

(** A request that follows the documented body schema:
    [{ url: string, maxPages?: number, csvFile?: string, headless?: boolean }]. *)
Definition valid_request (req : request) : Prop :=
  (exists u, url req = JStr u ∧ u ≠ "") ∧
  (maxPages req = JUndefined
   ∨ exists n, maxPages req = JNum (js_int n) ∧ (0 < n < 2 ^ 53)%Z) ∧
  (csvFile req = JUndefined ∨ exists name, csvFile req = JStr name) ∧
  (headless req = JUndefined ∨ exists b, headless req = JBool b).

(** The command line of a request, written out. *)
Definition quoted (s : string) : string := dq +:+ s +:+ dq.

Definition command_line (cfg : config) (req : request) (finalCsvFile : string) : string :=
  quoted (PYTHON_PATH cfg) +:+ " " +:+ quoted (PYTHON_SCRIPT cfg)
  +:+ " --url " +:+ quoted (toString (url req))
  +:+ " --csv-file " +:+ quoted finalCsvFile
  +:+ (if truthy (maxPages req) then " --max-pages " +:+ toString (maxPages req) else "")
  +:+ (if truthy (headless req) then " --headless" else "").

End Server.
Import Server Child.

(* ===================================================================== *)
(** ** The request body and the shape of a response                       *)
(* ===================================================================== *)

Module Body.

(** [req.body] as [express.json()] leaves it: the members of the JSON
    object that was sent (none for an array or an empty body). *)
Abbreviation t := (gmap string jsval).

(** Reading a property: [undefined] when the object has no such member. *)
Definition field (body : t) (k : string) : jsval := default JUndefined (body !! k).

(** Line 21: [const { url, maxPages, csvFile, headless } = req.body]. *)
Definition request_of_body (body : t) : request :=
  {| url := field body "url";
     maxPages := field body "maxPages";
     csvFile := field body "csvFile";
     headless := field body "headless" |}.

(** [POST /api/run-collector] on a parsed body. *)
Definition post_run_collector (cfg : config) (body : t) (fs : Fs.t)
    (world : string -> Fs.t -> run) : outcome * list Fs.op * list invocation :=
  run_collector cfg (request_of_body body) fs world.

(** The four names line 21 reads. *)
Definition read_by_handler (k : string) : Prop :=
  k = "url" ∨ k = "maxPages" ∨ k = "csvFile" ∨ k = "headless".

(** A falsy value put back to [undefined]. *)
Definition omit_falsy (v : jsval) : jsval := if truthy v then v else JUndefined.

Definition without_falsy (req : request) : request :=
  {| url := omit_falsy (url req);
     maxPages := omit_falsy (maxPages req);
     csvFile := omit_falsy (csvFile req);
     headless := omit_falsy (headless req) |}.

(** The four shapes the POST route answers with: those of lines 23, 49
    and 54-60, where the status, the [success] flag and the presence of
    [download] go together, and the error page of an exception. *)
Definition coherent (r : response) : Prop :=
  match payload r with
  | ErrorJson msg => status r = 400%Z ∧ msg = "URL is required"
  | RunJson true _ (Some _) => status r = 200%Z
  | RunJson false _ None => status r = 500%Z
  | ErrorPage _ => status r = 500%Z
  | _ => False
  end.

End Body.
Import Body.

(* ===================================================================== *)
(** ** A deployment used in the examples                                  *)
(* ===================================================================== *)

(** The service installed in [/srv/app], no variable set in [.env]. *)
Definition cfg0 : config := load_config ∅ "/srv/app".

Definition plain_request (u : string) (name : jsval) : request :=
  {| url := JStr u; maxPages := JUndefined; csvFile := name; headless := JUndefined |}.

(** A world in which the command writes [chunks], ends with [st], and
    leaves the file system as [leave] makes it. *)
Definition world_of (chunks : list (stream * string)) (st : exit_status)
    (leave : Fs.t -> Fs.t) : string -> Fs.t -> run :=
  fun _ fs => {| did := Ran chunks st; fs_at_close := leave fs |}.

(** The projections of what [run_collector] returns. *)
Definition outcome_of (x : outcome * list Fs.op * list invocation) : outcome := fst (fst x).
Definition ops_of (x : outcome * list Fs.op * list invocation) : list Fs.op := snd (fst x).
Definition calls_of (x : outcome * list Fs.op * list invocation) : list invocation := snd x.

(** A request whose [url] closes the quotation and goes on with a command
    of its own. *)
Definition injecting_url : string :=
  "x" +:+ dq +:+ "; touch /tmp/owned; echo " +:+ dq.
Definition injecting_request : request := plain_request injecting_url (JStr "r.csv").

(** A request whose [csvFile] climbs out of [/srv/app], and a file system
    with something to lose. *)
Definition traversal_name : string := "../../etc/passwd".
Definition traversal_request : request :=
  plain_request "http://a.example" (JStr traversal_name).
Definition fs_with_passwd : Fs.t := {[ "/etc/passwd" := Fs.File "root:x:0:0" ]}.

(** A request whose [csvFile] names a file in a sub-directory, and a
    collector that writes it and exits cleanly. *)
Definition nested_request : request :=
  plain_request "http://a.example" (JStr "out/report.csv").
Definition nested_world : string -> Fs.t -> run :=
  world_of [(Stdout, "done")] (ExitCode 0)
    (fun fs => <["/srv/app/out/report.csv" := Fs.File "ad,price"]> fs).

(** A request for [report.csv] while an older [report.csv] is there, and
    a collector that dies before it writes anything. *)
Definition report_request : request := plain_request "http://a.example" (JStr "report.csv").
Definition fs_with_report : Fs.t := {[ "/srv/app/report.csv" := Fs.File "old" ]}.
Definition dying_world : string -> Fs.t -> run :=
  world_of [(Stderr, "Traceback")] (ExitCode 1) (fun fs => fs).

(** The shell's complaint when the interpreter is missing. *)
Definition not_found_diag : string := "/bin/sh: 1: python: not found" +:+ nl.
Definition report_cmd : string := build_cmd cfg0 report_request "/srv/app/report.csv".
Definition nested_cmd : string := build_cmd cfg0 nested_request "/srv/app/out/report.csv".

(** A body written with the names of the README ([max_pages], [csv])
    next to the one the handler reads. *)
Definition readme_body : Body.t :=
  {[ "url" := JStr "http://a.example"; "max_pages" := JNum (js_int 5); "csv" := JStr "mine.csv" ]}.

(** A collector that writes [report.csv] and exits cleanly. *)
Definition writing_world : string -> Fs.t -> run :=
  world_of [(Stdout, "done")] (ExitCode 0)
    (fun fs => <["/srv/app/report.csv" := Fs.File "ad,price"]> fs).

(** The same for the default file of the configuration. *)
Definition default_request : request := plain_request "http://a.example" JUndefined.
Definition default_world : string -> Fs.t -> run :=
  world_of [(Stdout, "done")] (ExitCode 0)
    (fun fs => <["/srv/app/ad_data_collection.csv" := Fs.File "ad,price"]> fs).

(** Output made to look like the other failure: a clean run that writes
    the line of a failed command, and a failed run that writes the line of
    a missing file. *)
Definition failed_line : string := "❌ Error: Command failed: " +:+ report_cmd.
Definition missing_line : string := "CSV not generated".
Definition mimic_clean : list (stream * string) :=
  [(Stderr, failed_line +:+ nl); (Stdout, nl +:+ missing_line +:+ nl +:+ failed_line)].
Definition mimic_failed : list (stream * string) :=
  [(Stderr, failed_line +:+ nl +:+ nl +:+ missing_line)].

(** A chunk of [n] letters. *)
Definition letters (n : N) : string := N.iter n (String "a"%char) "".
Arguments letters : simpl never.

(** A file system where the expected path is a directory. *)
Definition fs_with_directory : Fs.t := {[ "/srv/app/report.csv" := Fs.Directory ]}.

(* ===================================================================== *)
(** ** Sanity checks of the embedding                                     *)
(* ===================================================================== *)

Example split_ex : Path.split_slash "../../etc//passwd" = [".."; ".."; "etc"; ""; "passwd"].
Proof. reflexivity. Qed.
Example join_ex1 : Path.join "/srv/app" "../../etc/passwd" = "/etc/passwd".
Proof. vm_compute. reflexivity. Qed.
Example join_ex2 : Path.join "/srv/app" "out/./report.csv/" = "/srv/app/out/report.csv/".
Proof. vm_compute. reflexivity. Qed.
Example join_ex3 : Path.join "/" "../x" = "/x".
Proof. vm_compute. reflexivity. Qed.
Example base_ex1 : Path.basename "/srv/app/out/report.csv/" = "report.csv".
Proof. vm_compute. reflexivity. Qed.
Example norm_ex1 : Path.normalize "../a/../../b/" = "../../b/".
Proof. vm_compute. reflexivity. Qed.
Example tostr_ex : toString (JNum (js_int (-25))) = "-25".
Proof. vm_compute. reflexivity. Qed.
Example inside_ex : Path.inside "/srv/app" "/srv/app/x" = true ∧ Path.inside "/srv/app" "/srv/apple" = false.
Proof. vm_compute. done. Qed.

Example cfg0_ex :
  cfg0 = {| dirname := "/srv/app"; PYTHON_PATH := "python";
            PYTHON_SCRIPT := "/srv/app/automated_ad_collector.py";
            CSV_FILE := "/srv/app/ad_data_collection.csv" |}.
Proof. vm_compute. reflexivity. Qed.

Example cmd_ex :
  build_cmd cfg0 {| url := JStr "http://a.example"; maxPages := JNum (js_int 3);
                    csvFile := JStr "r.csv"; headless := JBool true |} "/srv/app/r.csv"
  = dq +:+ "python" +:+ dq +:+ " " +:+ dq +:+ "/srv/app/automated_ad_collector.py" +:+ dq
    +:+ " --url " +:+ dq +:+ "http://a.example" +:+ dq
    +:+ " --csv-file " +:+ dq +:+ "/srv/app/r.csv" +:+ dq +:+ " --max-pages 3 --headless".
Proof. vm_compute. reflexivity. Qed.

Example run_ex :
  run_collector cfg0 (plain_request "http://a.example" (JStr "r.csv")) ∅
    (world_of [(Stdout, "one "); (Stderr, "warn "); (Stdout, "two")] (ExitCode 0)
       (fun fs => <["/srv/app/r.csv" := Fs.File "a,b"]> fs))
  = (Responds {| status := 200;
                 payload := RunJson true
                   ("one warn two" +:+ nl +:+ "one two" +:+ nl +:+ "warn ")
                   (Some "/download/r.csv") |},
     [Fs.OpExists "/srv/app/r.csv"; Fs.OpExists "/srv/app/r.csv"],
     [Exec (build_cmd cfg0 (plain_request "http://a.example" (JStr "r.csv")) "/srv/app/r.csv")]).
Proof. vm_compute. reflexivity. Qed.

Example param_ex :
  download_param "/download/report.csv" = Some "report.csv"
  ∧ download_param "/download/a%41.csv" = Some "aA.csv"
  ∧ download_param "/download/a.csv?x=1" = Some "a.csv"
  ∧ download_param "/Download/a.csv/" = Some "a.csv"
  ∧ download_param "/download/%FF" = None
  ∧ download_param "/download/a/b" = None
  ∧ download_param "/download/" = None.
Proof. repeat split; vm_compute; reflexivity. Qed.

Example download_ex :
  fst (download_file cfg0 ".report.csv" {[ "/srv/app/.report.csv" := Fs.File "x" ]})
  = {| status := 404; payload := NotFoundPage |}
  ∧ fst (download_file cfg0 "out" {[ "/srv/app/out" := Fs.Directory ]})
    = {| status := 404; payload := NotFoundPage |}
  ∧ fst (download_file cfg0 "report.csv" fs_with_report)
    = {| status := 200; payload := Attachment "/srv/app/report.csv" |}.
Proof. repeat split; vm_compute; reflexivity. Qed.

Example nul_ex :
  run_collector cfg0 (plain_request (String "000"%char "x") JUndefined) fs_with_report
    dying_world
  = (Throws "ERR_INVALID_ARG_VALUE", [Fs.OpExists "/srv/app/ad_data_collection.csv"], []).
Proof. vm_compute. reflexivity. Qed.

Example slice_ex :
  js_slice 3 "abcdef" = "abc" ∧ js_slice 2 "é€😀x" = "é€" ∧ js_slice 4 "é€😀x" = "é€😀".
Proof. repeat split; vm_compute; reflexivity. Qed.

(* ===================================================================== *)
(** ** Strings                                                            *)
(* ===================================================================== *)

Section Strings.

(** [String.append] does not unfold under [simpl]; these two equations
    are its definition. *)
Lemma app_cons (x : ascii) (a b : string) : String x a +:+ b = String x (a +:+ b).
Proof. reflexivity. Qed.

Lemma app_empty_l (b : string) : "" +:+ b = b.
Proof. reflexivity. Qed.

Lemma app_assoc_s (a b c : string) : (a +:+ b) +:+ c = a +:+ (b +:+ c).
Proof.
  induction a as [|x a IH]; [reflexivity|].
  now rewrite !app_cons, IH.
Qed.

Lemma app_empty_r (a : string) : a +:+ "" = a.
Proof.
  induction a as [|x a IH]; [reflexivity|].
  now rewrite app_cons, IH.
Qed.

Lemma app_cancel_l (a b c : string) : a +:+ b = a +:+ c -> b = c.
Proof.
  induction a as [|x a IH]; [trivial|].
  rewrite !app_cons. intros H. injection H. exact IH.
Qed.

Lemma concat_strings_app (l1 l2 : list string) :
  concat_strings (l1 ++ l2) = concat_strings l1 +:+ concat_strings l2.
Proof.
  induction l1 as [|s l1 IH]; simpl; [reflexivity|].
  rewrite IH. symmetry. apply app_assoc_s.
Qed.

End Strings.

(* ===================================================================== *)
(** ** Facts about [path]                                                 *)
(* ===================================================================== *)

Module PathFacts.
Import Path.

Lemma split_slash_nonempty s : split_slash s ≠ [].
Proof.
  destruct s as [|c s]; simpl; [discriminate|].
  destruct (Ascii.eqb c slash); [discriminate|].
  destruct (split_slash s); discriminate.
Qed.

Lemma split_slash_app a b :
  split_slash (a +:+ "/" +:+ b) = split_slash a ++ split_slash b.
Proof.
  induction a as [|c a IH]; simpl; [reflexivity|].
  rewrite IH.
  destruct (Ascii.eqb c slash); [reflexivity|].
  pose proof (split_slash_nonempty a) as Hne.
  destruct (split_slash a) as [|seg rest]; [congruence | reflexivity].
Qed.

Lemma split_slash_trailing a : split_slash (a +:+ "/") = split_slash a ++ [""].
Proof. exact (split_slash_app a ""). Qed.

(** No segment of a split contains a separator. *)
Lemma split_slash_segments s :
  Forall (fun seg => split_slash seg = [seg]) (split_slash s).
Proof.
  induction s as [|c s IH]; simpl.
  - constructor; [reflexivity | constructor].
  - destruct (Ascii.eqb c slash) eqn:Hc.
    + constructor; [reflexivity | exact IH].
    + destruct (split_slash s) as [|seg rest]; simpl.
      * constructor; [simpl; now rewrite Hc | constructor].
      * inversion IH as [|? ? Hseg Hrest]; subst.
        constructor; [|exact Hrest].
        simpl. now rewrite Hc, Hseg.
Qed.

Lemma split_join segs :
  segs ≠ [] -> Forall (fun seg => split_slash seg = [seg]) segs ->
  split_slash (join_slash segs) = segs.
Proof.
  induction segs as [|seg rest IH]; [congruence|].
  intros _ Hall. inversion Hall as [|? ? Hseg Hrest]; subst.
  destruct rest as [|seg' rest'].
  - simpl. exact Hseg.
  - change (join_slash (seg :: seg' :: rest'))
      with (seg +:+ "/" +:+ join_slash (seg' :: rest')).
    rewrite split_slash_app, Hseg, IH; [reflexivity | discriminate | exact Hrest].
Qed.

Lemma plain_kept seg : plain seg -> kept seg.
Proof. intros (? & ? & ? & ?). split; assumption. Qed.

Lemma push_segment_no_dotdot allow stack seg :
  seg ≠ ".." ->
  push_segment allow stack seg = if decide (kept seg) then seg :: stack else stack.
Proof.
  intros Hdd. unfold push_segment, is_empty, is_dot, is_dotdot.
  destruct (String.eqb seg "") eqn:He; simpl.
  { apply String.eqb_eq in He. destruct (decide (kept seg)) as [[? ?]|]; congruence. }
  destruct (String.eqb seg ".") eqn:Hd; simpl.
  { apply String.eqb_eq in Hd. destruct (decide (kept seg)) as [[? ?]|]; congruence. }
  apply String.eqb_neq in He, Hd.
  destruct (String.eqb seg "..") eqn:Hdd'.
  { apply String.eqb_eq in Hdd'. congruence. }
  destruct (decide (kept seg)) as [|Hn]; [reflexivity|].
  exfalso. apply Hn. split; assumption.
Qed.

Lemma fold_push_no_dotdot allow segs stack :
  ".." ∉ segs ->
  fold_left (push_segment allow) segs stack = rev (filter kept segs) ++ stack.
Proof.
  revert stack. induction segs as [|seg rest IH]; intros stack Hdd; [reflexivity|].
  simpl fold_left.
  rewrite push_segment_no_dotdot by (intros ->; apply Hdd; left).
  rewrite filter_cons.
  assert (".." ∉ rest) as Hrest by (intros Hin; apply Hdd; now right).
  destruct (decide (kept seg)); rewrite IH by exact Hrest.
  - simpl. now rewrite <- app_assoc.
  - reflexivity.
Qed.

(** Without [..] segments, normalising only drops empty and [.] segments. *)
Lemma normalize_segments_no_dotdot allow segs :
  ".." ∉ segs -> normalize_segments allow segs = filter kept segs.
Proof.
  intros Hdd. unfold normalize_segments.
  rewrite fold_push_no_dotdot by exact Hdd.
  now rewrite app_nil_r, rev_involutive.
Qed.

Lemma filter_kept_plain segs : Forall plain segs -> filter kept segs = segs.
Proof.
  induction 1 as [|seg rest Hseg _ IH]; [reflexivity|].
  rewrite filter_cons, decide_True by (now apply plain_kept). now rewrite IH.
Qed.

Lemma plain_not_dotdot segs : Forall plain segs -> ".." ∉ segs.
Proof.
  intros Hall Hin. rewrite Forall_forall in Hall.
  destruct (Hall _ Hin) as (_ & _ & Hdd & _). congruence.
Qed.

Lemma plain_no_slash segs :
  Forall plain segs -> Forall (fun seg => split_slash seg = [seg]) segs.
Proof.
  intros Hall. eapply Forall_impl; [exact Hall|].
  intros seg (_ & _ & _ & H). exact H.
Qed.

(** The segments of a split that survive normalisation are plain. *)
Lemma kept_segments_plain s :
  ".." ∉ split_slash s -> Forall plain (filter kept (split_slash s)).
Proof.
  intros Hdd. apply Forall_forall. intros seg Hin.
  apply list_elem_of_filter in Hin as [[Hne Hnd] Hin].
  pose proof (split_slash_segments s) as Hall. rewrite Forall_forall in Hall.
  repeat split; try assumption.
  - intros ->. contradiction.
  - now apply Hall.
Qed.

Lemma join_slash_empty segs : Forall plain segs -> join_slash segs = "" -> segs = [].
Proof.
  intros Hall. destruct segs as [|seg rest]; [reflexivity|].
  inversion Hall as [|? ? (Hne & _) _]; subst.
  destruct seg as [|c seg]; [congruence|].
  destruct rest; simpl; discriminate.
Qed.

(** The segments of an absolute, normalised path are the ones it was
    built from, with or without a trailing separator. *)
Lemma segments_absolute segs (trailing : bool) :
  Forall plain segs -> segs ≠ [] ->
  segments ("/" +:+ (if trailing then join_slash segs +:+ "/" else join_slash segs)) = segs.
Proof.
  intros Hall Hne. unfold segments. simpl starts_with_slash. simpl negb.
  assert (split_slash ("/" +:+ (if trailing then join_slash segs +:+ "/" else join_slash segs))
          = "" :: segs ++ (if trailing then [""] else [])) as ->.
  { change ("/" +:+ ?x) with ("" +:+ "/" +:+ x). rewrite split_slash_app. simpl.
    destruct trailing.
    - rewrite split_slash_trailing, split_join; auto using plain_no_slash.
    - rewrite split_join, app_nil_r; auto using plain_no_slash. }
  rewrite normalize_segments_no_dotdot.
  - rewrite filter_cons, decide_False by (intros [? ?]; congruence).
    rewrite filter_app, filter_kept_plain by exact Hall.
    destruct trailing; [|now rewrite app_nil_r].
    rewrite filter_cons, decide_False by (intros [? ?]; congruence).
    now rewrite app_nil_r.
  - intros Hin. apply elem_of_cons in Hin as [?|Hin]; [discriminate|].
    apply elem_of_app in Hin as [Hin|Hin].
    + now apply (plain_not_dotdot segs).
    + destruct trailing; [|inversion Hin].
      apply list_elem_of_singleton in Hin. discriminate.
Qed.

Lemma segments_of_absolute segs : Forall plain segs -> segments (absolute segs) = segs.
Proof.
  intros Hall. destruct segs as [|seg rest]; [reflexivity|].
  exact (segments_absolute (seg :: rest) false Hall ltac:(discriminate)).
Qed.

Lemma is_prefix_of_app xs ys : is_prefix_of xs (xs ++ ys) = true.
Proof.
  induction xs as [|x xs IH]; [reflexivity|]. simpl.
  now rewrite String.eqb_refl, IH.
Qed.

Lemma absolute_not_empty segs : is_empty (absolute segs) = false.
Proof. reflexivity. Qed.

Lemma is_empty_false s : s ≠ "" -> is_empty s = false.
Proof. intros H. now apply String.eqb_neq. Qed.

(** [path.join(root, name)] for an absolute normalised root and a name
    without [..]: the root's segments followed by the name's. *)
Lemma join_no_dotdot root_segs name :
  Forall plain root_segs -> name ≠ "" -> ".." ∉ split_slash name ->
  exists trailing : bool,
    let segs := root_segs ++ filter kept (split_slash name) in
    join (absolute root_segs) name
    = if is_empty (join_slash segs) then "/"
      else "/" +:+ (if trailing then join_slash segs +:+ "/" else join_slash segs).
Proof.
  intros Hroot Hname Hdd.
  exists (ends_with_slash (absolute root_segs +:+ "/" +:+ name)).
  unfold join. rewrite absolute_not_empty, (is_empty_false name Hname).
  unfold normalize.
  assert (is_empty (absolute root_segs +:+ "/" +:+ name) = false) as -> by reflexivity.
  assert (starts_with_slash (absolute root_segs +:+ "/" +:+ name) = true) as -> by reflexivity.
  simpl negb.
  assert (normalize_segments false (split_slash (absolute root_segs +:+ "/" +:+ name))
          = root_segs ++ filter kept (split_slash name)) as ->.
  { rewrite split_slash_app.
    assert ((".." ∉ split_slash (absolute root_segs))
            ∧ (filter kept (split_slash (absolute root_segs)) = root_segs)) as [Hr1 Hr2].
    { destruct root_segs as [|seg rest].
      - split; [|reflexivity]. vm_compute. intros Hin.
        apply elem_of_cons in Hin as [?|Hin]; [discriminate|].
        apply list_elem_of_singleton in Hin. discriminate.
      - unfold absolute. change ("/" +:+ ?x) with ("" +:+ "/" +:+ x).
        rewrite split_slash_app, split_join by (auto using plain_no_slash).
        simpl. split.
        + intros Hin. apply elem_of_cons in Hin as [?|Hin]; [discriminate|].
          now apply (plain_not_dotdot (seg :: rest)).
        + rewrite filter_cons, decide_False by (intros [? ?]; congruence).
          now apply filter_kept_plain. }
    rewrite normalize_segments_no_dotdot.
    - now rewrite filter_app, Hr2.
    - intros Hin. apply elem_of_app in Hin as [?|?]; contradiction. }
  simpl. destruct (is_empty (join_slash (root_segs ++ filter kept (split_slash name))));
    reflexivity.
Qed.

(** Such a resolution stays inside the root. *)
Lemma join_inside root_segs name :
  Forall plain root_segs -> name ≠ "" -> ".." ∉ split_slash name ->
  inside (absolute root_segs) (join (absolute root_segs) name) = true.
Proof.
  intros Hroot Hname Hdd.
  destruct (join_no_dotdot root_segs name Hroot Hname Hdd) as [trailing Hjoin].
  simpl in Hjoin. rewrite Hjoin. unfold inside.
  rewrite (segments_of_absolute root_segs Hroot).
  assert (Forall plain (root_segs ++ filter kept (split_slash name))) as Hall.
  { apply Forall_app. split; [exact Hroot | now apply kept_segments_plain]. }
  destruct (is_empty (join_slash (root_segs ++ filter kept (split_slash name)))) eqn:He.
  - apply String.eqb_eq in He. apply join_slash_empty in He; [|exact Hall].
    apply app_eq_nil in He as [-> _]. reflexivity.
  - rewrite segments_absolute; [| exact Hall |].
    + simpl. apply is_prefix_of_app.
    + intros Hnil. rewrite Hnil in He. discriminate.
Qed.

End PathFacts.

(* ===================================================================== *)
(** ** Facts about [exec]'s buffers                                       *)
(* ===================================================================== *)

Section Buffers.

(** Output that fits reaches the listeners whole. *)
Lemma delivered_within out err chunks :
  overflow out err chunks = None -> delivered out err chunks = chunks.
Proof.
  revert out err. induction chunks as [|[[|] data] rest IH]; intros out err; simpl;
    [reflexivity | |].
  - destruct (out + byte_length data <=? max_buffer)%N; [|discriminate].
    intros H. now rewrite IH.
  - destruct (err + byte_length data <=? max_buffer)%N; [|discriminate].
    intros H. now rewrite IH.
Qed.

(** The buffer of a stream that fits is its chunks laid end to end. *)
Lemma buffered_from_within s out err chunks :
  overflow out err chunks = None ->
  buffered_from (max_buffer - match s with Stdout => out | Stderr => err end) s chunks
  = concat_strings (chunks_of s chunks).
Proof.
  revert out err. induction chunks as [|[[|] data] rest IH]; intros out err; simpl;
    [reflexivity | |].
  - destruct (out + byte_length data <=? max_buffer)%N eqn:Hfit; [|discriminate].
    apply N.leb_le in Hfit. intros H. specialize (IH _ _ H).
    destruct s; simpl.
    + assert ((byte_length data <=? max_buffer - out)%N = true) as -> by (apply N.leb_le; lia).
      replace (max_buffer - out - byte_length data)%N
        with (max_buffer - (out + byte_length data))%N by lia.
      now rewrite IH.
    + exact IH.
  - destruct (err + byte_length data <=? max_buffer)%N eqn:Hfit; [|discriminate].
    apply N.leb_le in Hfit. intros H. specialize (IH _ _ H).
    destruct s; simpl.
    + exact IH.
    + assert ((byte_length data <=? max_buffer - err)%N = true) as -> by (apply N.leb_le; lia).
      replace (max_buffer - err - byte_length data)%N
        with (max_buffer - (err + byte_length data))%N by lia.
      now rewrite IH.
Qed.

Lemma buffered_within s chunks :
  within_max_buffer chunks -> buffered s chunks = concat_strings (chunks_of s chunks).
Proof.
  intros H. unfold buffered.
  pose proof (buffered_from_within s 0 0 chunks H) as Hb.
  destruct s; simpl in Hb; rewrite N.sub_0_r in Hb; exact Hb.
Qed.

Lemma data_events_within chunks st :
  within_max_buffer chunks -> data_events (Ran chunks st) = chunks.
Proof. intros H. unfold data_events. simpl. now apply delivered_within. Qed.

(** A cut of at least one unit off a chunk that is not empty is not
    empty. *)
Lemma js_slice_not_empty units s : (0 < units)%N -> s ≠ "" -> js_slice units s ≠ "".
Proof.
  intros Hu Hs. destruct s as [|c rest]; [congruence|].
  unfold js_slice. simpl.
  assert ((units =? 0)%N = false) as -> by (apply N.eqb_neq; lia).
  destruct (byte c <? 192)%N; [discriminate|].
  destruct (byte c <? 224)%N; [discriminate|].
  destruct (byte c <? 240)%N; [discriminate|].
  destruct (units =? 1)%N; [|discriminate].
  destruct rest as [|c1 [|c2 [|c3 rest]]]; discriminate.
Qed.

Lemma byte_length_empty s : byte_length s = 0%N -> s = "".
Proof. destruct s; [reflexivity|]. unfold byte_length. simpl. lia. Qed.

(** The buffer of the stream that overflowed is not empty. *)
Lemma buffered_from_overflow s out err chunks :
  overflow out err chunks = Some s ->
  (match s with Stdout => out | Stderr => err end < max_buffer)%N ->
  buffered_from (max_buffer - match s with Stdout => out | Stderr => err end) s
    (delivered out err chunks) ≠ "".
Proof.
  revert out err. induction chunks as [|[[|] data] rest IH]; intros out err; simpl;
    [discriminate | |].
  - destruct (out + byte_length data <=? max_buffer)%N eqn:Hfit.
    + apply N.leb_le in Hfit. intros H Hroom. simpl. destruct s; simpl.
      * assert ((byte_length data <=? max_buffer - out)%N = true) as ->
          by (apply N.leb_le; lia).
        destruct data as [|c data']; [|rewrite app_cons; discriminate].
        rewrite app_empty_l.
        replace (max_buffer - out - byte_length "")%N with (max_buffer - (out + 0))%N
          by (unfold byte_length; simpl; lia).
        apply (IH (out + 0)%N err) .
        -- exact H.
        -- simpl. lia.
      * apply (IH _ err H). exact Hroom.
    + apply N.leb_gt in Hfit. intros [= <-] Hroom. simpl.
      assert ((byte_length data <=? max_buffer - out)%N = false) as ->
        by (apply N.leb_gt; lia).
      apply js_slice_not_empty; [lia|].
      intros ->. unfold byte_length in Hfit. simpl in Hfit. lia.
  - destruct (err + byte_length data <=? max_buffer)%N eqn:Hfit.
    + apply N.leb_le in Hfit. intros H Hroom. simpl. destruct s; simpl.
      * apply (IH out _ H). exact Hroom.
      * assert ((byte_length data <=? max_buffer - err)%N = true) as ->
          by (apply N.leb_le; lia).
        destruct data as [|c data']; [|rewrite app_cons; discriminate].
        rewrite app_empty_l.
        replace (max_buffer - err - byte_length "")%N with (max_buffer - (err + 0))%N
          by (unfold byte_length; simpl; lia).
        apply (IH out (err + 0)%N).
        -- exact H.
        -- simpl. lia.
    + apply N.leb_gt in Hfit. intros [= <-] Hroom. simpl.
      assert ((byte_length data <=? max_buffer - err)%N = false) as ->
        by (apply N.leb_gt; lia).
      apply js_slice_not_empty; [lia|].
      intros ->. unfold byte_length in Hfit. simpl in Hfit. lia.
Qed.

Lemma buffered_overflow s chunks :
  overflow 0 0 chunks = Some s -> buffered s (delivered 0 0 chunks) ≠ "".
Proof.
  intros H. unfold buffered.
  pose proof (buffered_from_overflow s 0 0 chunks H) as Hb.
  destruct s; simpl in Hb; rewrite N.sub_0_r in Hb; apply Hb; reflexivity.
Qed.

End Buffers.

(* ===================================================================== *)
(** ** Facts about the handlers                                           *)
(* ===================================================================== *)

Section Handlers.

Lemma fold_on_data evs acc :
  fold_left on_data evs acc = acc +:+ concat_strings (map snd evs).
Proof.
  revert acc. induction evs as [|ev rest IH]; intros acc; simpl.
  - now rewrite app_empty_r.
  - rewrite IH. unfold on_data. apply app_assoc_s.
Qed.

(** [logs] after the listeners have run: the chunks in arrival order. *)
Lemma live_log_concat evs : live_log evs = concat_strings (map snd evs).
Proof. unfold live_log. now rewrite fold_on_data. Qed.

Lemma chunks_of_sublist s evs : sublist (chunks_of s evs) (map snd evs).
Proof.
  induction evs as [|[s' data] rest IH]; simpl; [constructor|].
  destruct (stream_eqb s s'); now constructor.
Qed.

Lemma append_buffers_copy logs out err :
  append_buffers logs out err = logs +:+ buffer_copy out +:+ buffer_copy err.
Proof.
  unfold append_buffers, buffer_copy.
  destruct (nonempty out), (nonempty err);
    rewrite ?app_empty_l, ?app_empty_r, ?app_assoc_s; reflexivity.
Qed.

(** [build_cmd], with its two conditional appends, is [command_line]. *)
Lemma build_cmd_command_line cfg req p : build_cmd cfg req p = command_line cfg req p.
Proof.
  unfold build_cmd, command_line, quoted.
  destruct (truthy (maxPages req)), (truthy (headless req));
    rewrite ?app_assoc_s, ?app_empty_r; reflexivity.
Qed.

Lemma existsSync_true fs p : Fs.existsSync fs p = true <-> is_Some (fs !! p).
Proof.
  unfold Fs.existsSync. destruct (fs !! p); split; intros H; try reflexivity;
    [eauto | discriminate | destruct H; discriminate].
Qed.

Lemma existsSync_false fs p : Fs.existsSync fs p = false <-> fs !! p = None.
Proof. unfold Fs.existsSync. destruct (fs !! p); split; congruence. Qed.

(** The synchronous body, case by case. *)
Lemma start_without_url cfg req fs :
  truthy (url req) = false ->
  run_collector_start cfg req fs
  = {| next := Replied {| status := 400; payload := ErrorJson "URL is required" |};
       fs_after := fs; fs_ops := []; spawned := [] |}.
Proof. intros H. unfold run_collector_start. now rewrite H. Qed.

Lemma start_cases cfg req fs :
  (truthy (url req) = false
   ∧ run_collector_start cfg req fs
     = {| next := Replied {| status := 400; payload := ErrorJson "URL is required" |};
          fs_after := fs; fs_ops := []; spawned := [] |})
  ∨ (truthy (url req) = true
     ∧ exists err, final_csv_file cfg req = inr err
       ∧ run_collector_start cfg req fs
         = {| next := Thrown err; fs_after := fs; fs_ops := []; spawned := [] |})
  ∨ (truthy (url req) = true
     ∧ exists p, final_csv_file cfg req = inl p ∧ fs !! p = None
       ∧ run_collector_start cfg req fs
         = if contains_nul (build_cmd cfg req p)
           then {| next := Thrown "ERR_INVALID_ARG_VALUE"; fs_after := fs;
                   fs_ops := [Fs.OpExists p]; spawned := [] |}
           else {| next := Running (build_cmd cfg req p) p; fs_after := fs;
                   fs_ops := [Fs.OpExists p]; spawned := [Exec (build_cmd cfg req p)] |})
  ∨ (truthy (url req) = true
     ∧ exists p content, final_csv_file cfg req = inl p ∧ fs !! p = Some (Fs.File content)
       ∧ run_collector_start cfg req fs
         = if contains_nul (build_cmd cfg req p)
           then {| next := Thrown "ERR_INVALID_ARG_VALUE"; fs_after := delete p fs;
                   fs_ops := [Fs.OpExists p; Fs.OpUnlink p]; spawned := [] |}
           else {| next := Running (build_cmd cfg req p) p; fs_after := delete p fs;
                   fs_ops := [Fs.OpExists p; Fs.OpUnlink p];
                   spawned := [Exec (build_cmd cfg req p)] |})
  ∨ (truthy (url req) = true
     ∧ exists p, final_csv_file cfg req = inl p ∧ fs !! p = Some Fs.Directory
       ∧ run_collector_start cfg req fs
         = {| next := Thrown "EISDIR"; fs_after := fs;
              fs_ops := [Fs.OpExists p; Fs.OpUnlink p]; spawned := [] |}).
Proof.
  destruct (truthy (url req)) eqn:Hu.
  2: { left. split; [reflexivity | now apply start_without_url]. }
  right. destruct (final_csv_file cfg req) as [p|err] eqn:Hp.
  2: { left. split; [reflexivity|]. exists err. split; [reflexivity|].
       unfold run_collector_start. now rewrite Hu, Hp. }
  right. destruct (fs !! p) as [[content|]|] eqn:Hfs.
  - right. left. split; [reflexivity|]. exists p, content.
    repeat split; try assumption.
    unfold run_collector_start. rewrite Hu, Hp. simpl.
    unfold Fs.existsSync, Fs.unlinkSync. now rewrite Hfs.
  - right. right. split; [reflexivity|]. exists p. repeat split; try assumption.
    unfold run_collector_start. rewrite Hu, Hp. simpl.
    unfold Fs.existsSync, Fs.unlinkSync. now rewrite Hfs.
  - left. split; [reflexivity|]. exists p. repeat split; try assumption.
    unfold run_collector_start. rewrite Hu, Hp. simpl.
    unfold Fs.existsSync. now rewrite Hfs.
Qed.

Lemma start_fresh cfg req fs p :
  truthy (url req) = true -> final_csv_file cfg req = inl p -> fs !! p = None ->
  contains_nul (build_cmd cfg req p) = false ->
  run_collector_start cfg req fs
  = {| next := Running (build_cmd cfg req p) p; fs_after := fs;
       fs_ops := [Fs.OpExists p]; spawned := [Exec (build_cmd cfg req p)] |}.
Proof.
  intros Hu Hp Hfs Hnul. unfold run_collector_start. rewrite Hu, Hp. simpl.
  apply existsSync_false in Hfs. now rewrite Hfs, Hnul.
Qed.

Lemma start_stale cfg req fs p content :
  truthy (url req) = true -> final_csv_file cfg req = inl p ->
  fs !! p = Some (Fs.File content) ->
  run_collector_start cfg req fs
  = if contains_nul (build_cmd cfg req p)
    then {| next := Thrown "ERR_INVALID_ARG_VALUE"; fs_after := delete p fs;
            fs_ops := [Fs.OpExists p; Fs.OpUnlink p]; spawned := [] |}
    else {| next := Running (build_cmd cfg req p) p; fs_after := delete p fs;
            fs_ops := [Fs.OpExists p; Fs.OpUnlink p];
            spawned := [Exec (build_cmd cfg req p)] |}.
Proof.
  intros Hu Hp Hfs. unfold run_collector_start. rewrite Hu, Hp. simpl.
  unfold Fs.existsSync, Fs.unlinkSync. now rewrite Hfs.
Qed.

(** A request that is not stopped before line 43 and whose command line
    holds no NUL is left running. *)
Lemma start_running cfg req fs p :
  truthy (url req) = true -> final_csv_file cfg req = inl p ->
  fs !! p ≠ Some Fs.Directory ->
  contains_nul (build_cmd cfg req p) = false ->
  next (run_collector_start cfg req fs) = Running (build_cmd cfg req p) p
  ∧ spawned (run_collector_start cfg req fs) = [Exec (build_cmd cfg req p)].
Proof.
  intros Hu Hp Hdir Hnul.
  destruct (fs !! p) as [[content|]|] eqn:Hfs.
  - rewrite (start_stale cfg req fs p content Hu Hp Hfs), Hnul. now split.
  - congruence.
  - rewrite (start_fresh cfg req fs p Hu Hp Hfs Hnul). now split.
Qed.

Lemma valid_request_url req : valid_request req -> truthy (url req) = true.
Proof.
  intros ((u & -> & Hu) & _). simpl. apply negb_true_iff. now apply String.eqb_neq.
Qed.

Lemma final_csv_file_named cfg req name :
  csvFile req = JStr name -> name ≠ "" ->
  final_csv_file cfg req = inl (Path.join (dirname cfg) name).
Proof.
  intros Hc Hn. unfold final_csv_file. rewrite Hc. simpl.
  apply String.eqb_neq in Hn. now rewrite Hn.
Qed.

(** Every file-system operation of the synchronous body is on the path
    [final_csv_file] resolved. *)
Lemma start_touches_final cfg req fs p :
  final_csv_file cfg req = inl p ->
  Forall (fun o => Fs.touched o = p) (fs_ops (run_collector_start cfg req fs)).
Proof.
  intros Hp.
  destruct (start_cases cfg req fs)
    as [[_ Hst]|[(_ & err & _ & Hst)|[(_ & q & Hq & _ & Hst)|[(_ & q & c & Hq & _ & Hst)
       |(_ & q & Hq & _ & Hst)]]]]; rewrite Hst; try (constructor; fail);
    rewrite Hp in Hq; injection Hq as <-;
    try destruct (contains_nul (build_cmd cfg req p)); simpl; repeat constructor.
Qed.

Lemma start_running_final cfg req fs cmd p :
  next (run_collector_start cfg req fs) = Running cmd p ->
  final_csv_file cfg req = inl p ∧ cmd = build_cmd cfg req p
  ∧ spawned (run_collector_start cfg req fs) = [Exec cmd].
Proof.
  destruct (start_cases cfg req fs)
    as [[_ Hst]|[(_ & err & _ & Hst)|[(_ & q & Hq & _ & Hst)|[(_ & q & c & Hq & _ & Hst)
       |(_ & q & Hq & _ & Hst)]]]]; rewrite Hst; try discriminate;
    destruct (contains_nul (build_cmd cfg req q)); simpl; try discriminate;
    intros [= <- <-]; repeat split; assumption.
Qed.

Lemma finish_touches_final cmd p r :
  Forall (fun o => Fs.touched o = p) (snd (run_collector_finish cmd p r)).
Proof.
  unfold run_collector_finish, on_complete.
  destruct (error_of cmd (did r)); simpl; [constructor|].
  destruct (Fs.existsSync (fs_at_close r) p); simpl; repeat constructor.
Qed.

(** How the whole route is made of its stages. *)
Lemma run_collector_running cfg req fs world cmd p :
  next (run_collector_start cfg req fs) = Running cmd p ->
  run_collector cfg req fs world
  = (Responds (fst (run_collector_finish cmd p
                      (world cmd (fs_after (run_collector_start cfg req fs))))),
     fs_ops (run_collector_start cfg req fs)
     ++ snd (run_collector_finish cmd p
               (world cmd (fs_after (run_collector_start cfg req fs)))),
     spawned (run_collector_start cfg req fs)).
Proof.
  intros Hnext. unfold run_collector. rewrite Hnext.
  now destruct (run_collector_finish cmd p
                  (world cmd (fs_after (run_collector_start cfg req fs)))).
Qed.

Lemma run_collector_thrown cfg req fs world err :
  next (run_collector_start cfg req fs) = Thrown err ->
  run_collector cfg req fs world
  = (Throws err, fs_ops (run_collector_start cfg req fs),
     spawned (run_collector_start cfg req fs)).
Proof. intros Hnext. unfold run_collector. now rewrite Hnext. Qed.

(** The callback is given no error exactly after a clean exit of a
    command whose output fits. *)
Lemma error_of_none cmd b :
  error_of cmd b = None
  <-> exists chunks, b = Ran chunks (ExitCode 0) ∧ within_max_buffer chunks.
Proof.
  split.
  - destruct b as [errno|diag|chunks st]; unfold error_of; cbn [written status_of];
      [discriminate | |].
    + destruct (overflow 0 0 [(Stderr, diag)]); discriminate.
    + destruct (overflow 0 0 chunks) eqn:Hov; [discriminate|].
      destruct st as [[| |]|]; try discriminate. intros _. eauto.
  - intros (chunks & -> & Hfit). unfold error_of. simpl.
    unfold within_max_buffer in Hfit. now rewrite Hfit.
Qed.

Lemma error_of_ran cmd chunks st :
  within_max_buffer chunks -> st ≠ ExitCode 0 ->
  error_of cmd (Ran chunks st)
  = Some (command_failed cmd (concat_strings (chunks_of Stderr chunks)) st).
Proof.
  intros Hfit Hst. unfold error_of. simpl.
  rewrite (data_events_within chunks st Hfit), (buffered_within Stderr chunks Hfit).
  unfold within_max_buffer in Hfit. rewrite Hfit.
  destruct st as [n|sig]; [|reflexivity].
  destruct n; [congruence | reflexivity | reflexivity].
Qed.

Lemma error_of_overflow cmd chunks st s :
  overflow 0 0 chunks = Some s -> error_of cmd (Ran chunks st) = Some (buffer_exceeded s).
Proof. intros Hov. unfold error_of. simpl. now rewrite Hov. Qed.

Lemma error_of_failure cmd b :
  launch_failure b ∨ run_failure b -> exists e, error_of cmd b = Some e.
Proof.
  intros Hfail. destruct (error_of cmd b) as [e|] eqn:He; [eauto|].
  apply error_of_none in He as (chunks & -> & _).
  destruct Hfail as [[]|Hst]. now destruct Hst.
Qed.

(** The three ways the callback can go. *)
Lemma finish_cases cmd p r :
  (exists e, error_of cmd (did r) = Some e
     ∧ run_collector_finish cmd p r
       = ({| status := 500;
             payload := RunJson false
               (append_buffers (live_log (data_events (did r)))
                  (buffered Stdout (data_events (did r)))
                  (buffered Stderr (data_events (did r))) +:+ error_signal e) None |}, []))
  ∨ (error_of cmd (did r) = None ∧ fs_at_close r !! p = None
     ∧ run_collector_finish cmd p r
       = ({| status := 500;
             payload := RunJson false
               (append_buffers (live_log (data_events (did r)))
                  (buffered Stdout (data_events (did r)))
                  (buffered Stderr (data_events (did r))) +:+ missing_signal) None |},
          [Fs.OpExists p]))
  ∨ (error_of cmd (did r) = None ∧ is_Some (fs_at_close r !! p)
     ∧ run_collector_finish cmd p r
       = ({| status := 200;
             payload := RunJson true
               (append_buffers (live_log (data_events (did r)))
                  (buffered Stdout (data_events (did r)))
                  (buffered Stderr (data_events (did r))))
               (Some ("/download/" +:+ Path.basename p)) |},
          [Fs.OpExists p])).
Proof.
  unfold run_collector_finish, on_complete.
  destruct (error_of cmd (did r)) as [e|] eqn:He.
  { left. exists e. split; reflexivity. }
  right. destruct (fs_at_close r !! p) as [entry|] eqn:Hfs.
  - right. repeat split; [eauto|].
    assert (Fs.existsSync (fs_at_close r) p = true) as -> by (apply existsSync_true; eauto).
    reflexivity.
  - left. repeat split.
    assert (Fs.existsSync (fs_at_close r) p = false) as -> by now apply existsSync_false.
    reflexivity.
Qed.

(** What the callback makes of a run that ended with an error. *)
Lemma finish_with_error cmd p b fs e :
  error_of cmd b = Some e ->
  run_collector_finish cmd p {| did := b; fs_at_close := fs |}
  = ({| status := 500;
        payload := RunJson false
          (live_log (data_events b)
           +:+ buffer_copy (buffered Stdout (data_events b))
           +:+ buffer_copy (buffered Stderr (data_events b))
           +:+ error_signal e) None |}, []).
Proof.
  intros He. unfold run_collector_finish, on_complete. cbn [did fs_at_close].
  rewrite He. now rewrite append_buffers_copy, !app_assoc_s.
Qed.

(** What it makes of a clean exit of a command whose output fits, with
    and without the file. *)
Lemma finish_clean_missing cmd p chunks fs :
  within_max_buffer chunks -> fs !! p = None ->
  run_collector_finish cmd p {| did := Ran chunks (ExitCode 0); fs_at_close := fs |}
  = ({| status := 500;
        payload := RunJson false
          (live_log chunks +:+ buffer_copy (concat_strings (chunks_of Stdout chunks))
           +:+ buffer_copy (concat_strings (chunks_of Stderr chunks))
           +:+ missing_signal) None |},
     [Fs.OpExists p]).
Proof.
  intros Hfit Hfs. unfold run_collector_finish, on_complete. cbn [did fs_at_close].
  assert (error_of cmd (Ran chunks (ExitCode 0)) = None) as ->
    by (apply error_of_none; eauto).
  rewrite (data_events_within chunks _ Hfit), !(buffered_within _ chunks Hfit).
  apply existsSync_false in Hfs. rewrite Hfs.
  now rewrite append_buffers_copy, !app_assoc_s.
Qed.

Lemma finish_clean_present cmd p chunks fs :
  within_max_buffer chunks -> is_Some (fs !! p) ->
  run_collector_finish cmd p {| did := Ran chunks (ExitCode 0); fs_at_close := fs |}
  = ({| status := 200;
        payload := RunJson true
          (live_log chunks +:+ buffer_copy (concat_strings (chunks_of Stdout chunks))
           +:+ buffer_copy (concat_strings (chunks_of Stderr chunks)))
          (Some ("/download/" +:+ Path.basename p)) |},
     [Fs.OpExists p]).
Proof.
  intros Hfit Hfs. unfold run_collector_finish, on_complete. cbn [did fs_at_close].
  assert (error_of cmd (Ran chunks (ExitCode 0)) = None) as ->
    by (apply error_of_none; eauto).
  rewrite (data_events_within chunks _ Hfit), !(buffered_within _ chunks Hfit).
  apply existsSync_true in Hfs. rewrite Hfs.
  now rewrite append_buffers_copy.
Qed.

(** A run that closes with no file at the expected path is answered with
    a failure, whatever the command did. *)
Lemma finish_without_file cmd p r :
  fs_at_close r !! p = None ->
  exists logs,
    fst (run_collector_finish cmd p r)
    = {| status := 500; payload := RunJson false logs None |}.
Proof.
  intros Hfs.
  destruct (finish_cases cmd p r) as [(e & _ & Hfin)|[(_ & _ & Hfin)|(_ & [x Hx] & _)]];
    [rewrite Hfin; eexists; reflexivity .. | congruence].
Qed.

End Handlers.

(* ===================================================================== *)
(** ** C1: how the collector is started                                   *)
(* ===================================================================== *)




(* ===================================================================== *)
(** ** C2: where a caller-supplied file name resolves                     *)
(* ===================================================================== *)

(** C2, as the code has it: resolution is [path.join] of the root and the
    name, and never an error. For a root that is an absolute normalised
    path and a name that is not empty and has no [..] segment, the resolved
    path is inside the root, and every file-system operation of the two
    routes (existence check, removal, sending the file) is on that path. *)
Theorem C2_names_without_dotdot_stay_inside_root cfg root_segs req name fs world :
  dirname cfg = Path.absolute root_segs ->
  Forall Path.plain root_segs ->
  csvFile req = JStr name ->
  name ≠ "" ->
  ".." ∉ Path.split_slash name ->
  final_csv_file cfg req = inl (Path.join (dirname cfg) name)
  ∧ Path.inside (dirname cfg) (Path.join (dirname cfg) name) = true
  ∧ Forall (fun o => Fs.touched o = Path.join (dirname cfg) name)
      (ops_of (run_collector cfg req fs world))
  ∧ Forall (fun o => Fs.touched o = Path.join (dirname cfg) name)
      (snd (download_file cfg name fs)).
Proof.
  intros Hroot Hplain Hcsv Hname Hdd.
  pose proof (final_csv_file_named cfg req name Hcsv Hname) as Hfinal.
  split; [exact Hfinal|]. split.
  { rewrite Hroot. now apply PathFacts.join_inside. }
  split.
  - unfold run_collector, ops_of.
    pose proof (start_touches_final cfg req fs _ Hfinal) as Hstart.
    destruct (next (run_collector_start cfg req fs)) as [r|err|cmd q] eqn:Hnext;
      simpl; try exact Hstart.
    apply start_running_final in Hnext as (Hq & _ & _). rewrite Hfinal in Hq.
    injection Hq as <-.
    pose proof (finish_touches_final cmd (Path.join (dirname cfg) name)
                  (world cmd (fs_after (run_collector_start cfg req fs)))) as Hfin.
    destruct (run_collector_finish cmd (Path.join (dirname cfg) name)
                (world cmd (fs_after (run_collector_start cfg req fs)))) as [r ops].
    simpl in *. apply Forall_app. now split.
  - unfold download_file.
    destruct (Fs.existsSync fs (Path.join (dirname cfg) name)); simpl; repeat constructor.
Qed.

Lemma C2_names_without_dotdot_stay_inside_root_witness :
  Path.inside "/srv/app" (Path.join "/srv/app" "out/report.csv") = true
  ∧ Forall (fun o => Fs.touched o = "/srv/app/out/report.csv")
      (ops_of (run_collector cfg0 nested_request ∅ nested_world)).
Proof.
  assert (Forall Path.plain ["srv"; "app"]) as Hplain.
  { repeat constructor; discriminate. }
  assert (".." ∉ Path.split_slash "out/report.csv") as Hdd.
  { vm_compute. intros Hin. repeat (apply elem_of_cons in Hin as [Hin|Hin]; [discriminate|]).
    inversion Hin. }
  destruct (C2_names_without_dotdot_stay_inside_root cfg0 ["srv"; "app"] nested_request
              "out/report.csv" ∅ nested_world eq_refl Hplain eq_refl
              ltac:(discriminate) Hdd) as (_ & Hin & Hops & _).
  split; [exact Hin | exact Hops].
Defined.

(** C2, as stated, fails: the name [../../etc/passwd] resolves, without
    any error, to [/etc/passwd], outside the root [/srv/app]; the POST
    handler checks that path and removes the file there, and the download
    route sends it. *)
Lemma C2_traversal_leaves_the_root :
  final_csv_file cfg0 traversal_request = inl "/etc/passwd"
  ∧ Path.inside (dirname cfg0) "/etc/passwd" = false
  ∧ fs_ops (run_collector_start cfg0 traversal_request fs_with_passwd)
    = [Fs.OpExists "/etc/passwd"; Fs.OpUnlink "/etc/passwd"]
  ∧ fs_after (run_collector_start cfg0 traversal_request fs_with_passwd) !! "/etc/passwd" = None
  ∧ download_file cfg0 traversal_name fs_with_passwd
    = ({| status := 200; payload := Attachment "/etc/passwd" |},
       [Fs.OpExists "/etc/passwd"; Fs.OpSend "/etc/passwd"]).
Proof. repeat split; vm_compute; reflexivity. Qed.

(* ===================================================================== *)
(** ** C3: the download reference of a finished run                       *)
(* ===================================================================== *)

Module PlainNames.
Import Path PathFacts.

Lemma split_slash_only_empty s : split_slash s = [""] -> s = "".
Proof.
  destruct s as [|c s]; [reflexivity|]. simpl.
  destruct (Ascii.eqb c slash).
  - intros [= H]. now destruct (split_slash_nonempty s).
  - destruct (split_slash s); discriminate.
Qed.

(** A string that ends with the separator splits into a last empty
    segment. *)
Lemma ends_with_slash_split s :
  ends_with_slash s = true -> exists l, split_slash s = l ++ [""].
Proof.
  induction s as [|c s IH]; [discriminate|].
  destruct s as [|c' s'].
  - simpl. intros ->. now exists [""].
  - intros H. change (ends_with_slash (String c' s') = true) in H.
    destruct (IH H) as [l Hl].
    change (split_slash (String c (String c' s')))
      with (if Ascii.eqb c slash then "" :: split_slash (String c' s')
            else match split_slash (String c' s') with
                 | [] => [String c ""]
                 | seg :: rest => String c seg :: rest
                 end).
    rewrite Hl. destruct (Ascii.eqb c slash).
    + now exists ("" :: l).
    + destruct l as [|seg l'].
      * apply split_slash_only_empty in Hl. discriminate.
      * now exists (String c seg :: l').
Qed.

Lemma ends_with_slash_app a b : b ≠ "" -> ends_with_slash (a +:+ b) = ends_with_slash b.
Proof.
  intros Hb. induction a as [|c a IH]; [reflexivity|].
  rewrite app_cons.
  destruct (a +:+ b) as [|c' rest] eqn:Hab.
  - destruct a; [rewrite app_empty_l in Hab; congruence | rewrite app_cons in Hab; discriminate].
  - exact IH.
Qed.

Lemma plain_no_trailing_slash name : plain name -> ends_with_slash name = false.
Proof.
  intros (Hne & _ & _ & Hsplit).
  destruct (ends_with_slash name) eqn:He; [|reflexivity].
  destruct (ends_with_slash_split name He) as [l Hl].
  rewrite Hsplit in Hl. destruct l as [|x [|y l']]; simplify_eq/=; congruence.
Qed.

(** A plain name resolves to the root's segments followed by the name. *)
Lemma join_plain root_segs name :
  Forall plain root_segs -> plain name ->
  join (absolute root_segs) name = absolute (root_segs ++ [name]).
Proof.
  intros Hroot Hname. pose proof Hname as (Hne & Hnd & Hndd & Hsplit).
  unfold join. rewrite absolute_not_empty, (is_empty_false name Hne).
  unfold normalize.
  assert (is_empty (absolute root_segs +:+ "/" +:+ name) = false) as -> by reflexivity.
  assert (starts_with_slash (absolute root_segs +:+ "/" +:+ name) = true) as -> by reflexivity.
  rewrite <- app_assoc_s, ends_with_slash_app, plain_no_trailing_slash, app_assoc_s
    by assumption.
  assert (normalize_segments (negb true) (split_slash (absolute root_segs +:+ "/" +:+ name))
          = root_segs ++ [name]) as ->.
  { rewrite split_slash_app, Hsplit.
    rewrite normalize_segments_no_dotdot.
    - rewrite filter_app, filter_cons, decide_True, filter_nil by (now split).
      f_equal. destruct root_segs as [|seg rest]; [reflexivity|].
      unfold absolute. change ("/" +:+ ?x) with ("" +:+ "/" +:+ x).
      rewrite split_slash_app, split_join by (auto using plain_no_slash).
      simpl. rewrite filter_cons, decide_False by (intros [? ?]; congruence).
      now apply filter_kept_plain.
    - intros Hin. apply elem_of_app in Hin as [Hin|Hin].
      + destruct root_segs as [|seg rest].
        * vm_compute in Hin. repeat (apply elem_of_cons in Hin as [Hin|Hin]; [discriminate|]).
          inversion Hin.
        * unfold absolute in Hin. change ("/" +:+ ?x) with ("" +:+ "/" +:+ x) in Hin.
          rewrite split_slash_app, split_join in Hin by (auto using plain_no_slash).
          apply elem_of_cons in Hin as [?|Hin]; [discriminate|].
          now apply (plain_not_dotdot (seg :: rest)).
      + apply list_elem_of_singleton in Hin. congruence. }
  assert (is_empty (join_slash (root_segs ++ [name])) = false) as ->.
  { apply is_empty_false. intros Hj. apply join_slash_empty in Hj.
    - now destruct root_segs.
    - apply Forall_app. split; [assumption | now repeat constructor]. }
  reflexivity.
Qed.

Lemma basename_absolute segs name :
  Forall plain segs -> plain name -> basename (absolute (segs ++ [name])) = name.
Proof.
  intros Hsegs Hname. unfold basename, absolute.
  change ("/" +:+ ?x) with ("" +:+ "/" +:+ x).
  rewrite split_slash_app, split_join.
  - simpl. rewrite filter_cons, decide_False by (intros H; now apply H).
    assert (filter (fun seg : string => seg ≠ "") segs = segs) as Hfilter.
    { clear -Hsegs. induction Hsegs as [|seg rest (Hne & _) _ IH]; [reflexivity|].
      now rewrite filter_cons, decide_True, IH. }
    rewrite filter_app, Hfilter, filter_cons, decide_True, filter_nil by (apply Hname).
    now rewrite last_snoc.
  - now destruct segs.
  - apply plain_no_slash, Forall_app.
    split; [assumption | constructor; [assumption | constructor]].
Qed.

End PlainNames.


Section Routing.

Lemma safe_char_differs c d : safe_char d = false -> safe_char c = true -> Ascii.eqb c d = false.
Proof. intros Hd Hc. apply Ascii.eqb_neq. intros ->. congruence. Qed.

Lemma request_path_safe s : route_safe s = true -> request_path s = s.
Proof.
  induction s as [|c s IH]; [reflexivity|]. simpl.
  intros H. apply andb_true_iff in H as [Hc H].
  rewrite (safe_char_differs c "?" eq_refl Hc), (safe_char_differs c "#" eq_refl Hc).
  simpl. now rewrite IH.
Qed.

Lemma decode_uri_safe s : route_safe s = true -> decode_uri [] s = Some s.
Proof.
  induction s as [|c s IH]; [reflexivity|]. simpl.
  intros H. apply andb_true_iff in H as [Hc H].
  rewrite (safe_char_differs c "%" eq_refl Hc). now rewrite IH.
Qed.

Lemma route_segment_whole s : Path.split_slash s = [s] -> route_segment s = Some s.
Proof.
  induction s as [|c s IH]; [reflexivity|]. simpl. unfold Path.slash.
  destruct (Ascii.eqb c "/").
  - intros H. inversion H.
  - destruct (Path.split_slash s) as [|seg rest] eqn:Hs.
    + now destruct (PathFacts.split_slash_nonempty s).
    + intros [= -> ->]. now rewrite IH.
Qed.

(** A reference that ends in a name of letters, digits, dots, dashes and
    underscores is read back as that name. *)
Lemma download_param_of_reference name :
  route_safe name = true -> Path.split_slash name = [name] -> name ≠ "" ->
  download_param ("/download/" +:+ name) = Some name.
Proof.
  intros Hsafe Hseg Hne. unfold download_param.
  rewrite !app_cons, app_empty_l. simpl.
  rewrite (request_path_safe name Hsafe), (route_segment_whole name Hseg).
  apply String.eqb_neq in Hne. rewrite Hne. now apply decode_uri_safe.
Qed.

End Routing.

(** Where the two resolutions do agree: for a [csvFile] that is one plain
    name of letters, digits, dots, dashes and underscores, the [:filename]
    of the download reference resolves to the path the run was told to
    write. *)
Lemma plain_name_reference_resolves_back cfg root_segs name :
  dirname cfg = Path.absolute root_segs ->
  Forall Path.plain root_segs -> Path.plain name -> route_safe name = true ->
  download_param ("/download/" +:+ Path.basename (Path.join (dirname cfg) name))
  = Some name
  ∧ Path.join (dirname cfg) name = Path.absolute (root_segs ++ [name]).
Proof.
  intros -> Hroot Hname Hsafe.
  rewrite PlainNames.join_plain, PlainNames.basename_absolute by assumption.
  split; [|reflexivity].
  apply download_param_of_reference; [assumption | apply Hname | apply Hname].
Qed.

(** C3, evaluated where the code departs from it: the request names
    [out/report.csv], the collector exits cleanly and the file is there.
    The response reports success with the reference [/download/report.csv];
    its [:filename] is [report.csv], which the download route resolves to
    [/srv/app/report.csv], not to [/srv/app/out/report.csv] where the run
    wrote, and answers 404. *)
Theorem C3_reference_drops_the_directory_of_the_artifact :
  final_csv_file cfg0 nested_request = inl "/srv/app/out/report.csv"
  ∧ outcome_of (run_collector cfg0 nested_request ∅ nested_world)
    = Responds {| status := 200;
                  payload := RunJson true ("done" +:+ nl +:+ "done")
                               (Some "/download/report.csv") |}
  ∧ fs_at_close (nested_world nested_cmd ∅) !! "/srv/app/out/report.csv"
    = Some (Fs.File "ad,price")
  ∧ download_param "/download/report.csv" = Some "report.csv"
  ∧ Path.join (dirname cfg0) "report.csv" = "/srv/app/report.csv"
  ∧ download_file cfg0 "report.csv" (fs_at_close (nested_world nested_cmd ∅))
    = ({| status := 404; payload := Text "File not found" |},
       [Fs.OpExists "/srv/app/report.csv"]).
Proof. repeat split; vm_compute; reflexivity. Qed.

(* ===================================================================== *)
(** ** C4: a request without [url]                                        *)
(* ===================================================================== *)

(** C4: when the body has no [url], the response is 400 with
    [{ error: "URL is required" }], no child process is started, and the
    file system is neither asked anything nor changed. *)
Theorem C4_missing_url_rejected_without_effects cfg req fs world :
  url req = JUndefined ->
  run_collector cfg req fs world
  = (Responds {| status := 400; payload := ErrorJson "URL is required" |}, [], [])
  ∧ fs_after (run_collector_start cfg req fs) = fs
  ∧ spawned (run_collector_start cfg req fs) = [].
Proof.
  intros Hurl.
  assert (truthy (url req) = false) as Hfalsy by now rewrite Hurl.
  unfold run_collector. rewrite (start_without_url cfg req fs Hfalsy). simpl.
  repeat split.
Qed.

Lemma C4_missing_url_rejected_without_effects_witness :
  run_collector cfg0
    {| url := JUndefined; maxPages := JNum (js_int 2); csvFile := JStr "report.csv";
       headless := JBool true |} fs_with_report dying_world
  = (Responds {| status := 400; payload := ErrorJson "URL is required" |}, [], [])
  ∧ fs_after (run_collector_start cfg0
                {| url := JUndefined; maxPages := JNum (js_int 2); csvFile := JStr "report.csv";
                   headless := JBool true |} fs_with_report) = fs_with_report.
Proof.
  destruct (C4_missing_url_rejected_without_effects cfg0
              {| url := JUndefined; maxPages := JNum (js_int 2); csvFile := JStr "report.csv";
                 headless := JBool true |} fs_with_report dying_world eq_refl)
    as (H1 & H2 & _).
  split; [exact H1 | exact H2].
Defined.

(* ===================================================================== *)
(** ** C5, C6, C7, C10: the completion callback                           *)
(* ===================================================================== *)

Section Completion.

(** The two lines the callback can end [logs] with never coincide, and
    neither starts the other. *)
Lemma signals_differ e rest1 rest2 :
  missing_signal +:+ rest1 ≠ error_signal e +:+ rest2.
Proof.
  unfold missing_signal, error_signal, nl. rewrite !app_assoc_s, !app_cons, !app_empty_l.
  discriminate.
Qed.

Lemma line_feeds_app a b : line_feeds (a +:+ b) = line_feeds a + line_feeds b.
Proof.
  induction a as [|c a IH]; [reflexivity|].
  rewrite app_cons. simpl. rewrite IH. lia.
Qed.

Lemma buffer_copy_not_empty s : s ≠ "" -> buffer_copy s = nl +:+ s.
Proof.
  intros Hs. unfold buffer_copy, nonempty. apply String.eqb_neq in Hs. now rewrite Hs.
Qed.

(** The logs of a failed run hold at least two line feeds: the one before
    the error line, and one more, after the command line or before the
    copy of the stream that overflowed. *)
Lemma failed_run_line_feeds cmd p chunks st fs :
  st ≠ ExitCode 0 ->
  exists logs,
    fst (run_collector_finish cmd p {| did := Ran chunks st; fs_at_close := fs |})
    = {| status := 500; payload := RunJson false logs None |}
    ∧ (2 <= line_feeds logs)%nat.
Proof.
  intros Hst. destruct (overflow 0 0 chunks) as [s|] eqn:Hov.
  - rewrite (finish_with_error cmd p (Ran chunks st) fs _
               (error_of_overflow cmd chunks st s Hov)).
    eexists. split; [reflexivity|].
    pose proof (buffered_overflow s chunks Hov) as Hne.
    unfold data_events. simpl written. unfold error_signal.
    rewrite !line_feeds_app.
    destruct s; rewrite (buffer_copy_not_empty _ Hne), line_feeds_app;
      change (line_feeds nl) with 1; lia.
  - rewrite (finish_with_error cmd p (Ran chunks st) fs _ (error_of_ran cmd chunks st Hov Hst)).
    eexists. split; [reflexivity|].
    unfold error_signal, command_failed. simpl message.
    rewrite !line_feeds_app. change (line_feeds nl) with 1. lia.
Qed.

End Completion.

(** C5, as the code has it: after a clean exit of a command whose output
    fits [exec]'s buffers, with no file at the expected path, the response
    is a failure (500, [success: false], no download reference) whose logs
    are the accumulated log followed by the line [CSV not generated]; a
    failed command appends another line, so for the same output of the
    program the response differs from the one for any other exit
    status. *)
Theorem C5_missing_artifact_appends_its_own_line cmd p chunks fs :
  within_max_buffer chunks ->
  fs !! p = None ->
  fst (run_collector_finish cmd p {| did := Ran chunks (ExitCode 0); fs_at_close := fs |})
  = {| status := 500;
       payload := RunJson false
         (live_log chunks +:+ buffer_copy (concat_strings (chunks_of Stdout chunks))
          +:+ buffer_copy (concat_strings (chunks_of Stderr chunks))
          +:+ nl +:+ "CSV not generated") None |}
  ∧ forall st fs', st ≠ ExitCode 0 ->
      fst (run_collector_finish cmd p {| did := Ran chunks st; fs_at_close := fs' |})
      ≠ fst (run_collector_finish cmd p {| did := Ran chunks (ExitCode 0); fs_at_close := fs |}).
Proof.
  intros Hfit Hfs. rewrite (finish_clean_missing cmd p chunks fs Hfit Hfs).
  split; [reflexivity|].
  intros st fs' Hst.
  rewrite (finish_with_error cmd p (Ran chunks st) fs' _ (error_of_ran cmd chunks st Hfit Hst)).
  rewrite (data_events_within chunks st Hfit), !(buffered_within _ chunks Hfit).
  simpl. intros [= H].
  do 3 apply app_cancel_l in H.
  apply (signals_differ (command_failed cmd (concat_strings (chunks_of Stderr chunks)) st)
           "" "").
  now rewrite !app_empty_r.
Qed.

Lemma C5_missing_artifact_appends_its_own_line_witness :
  fst (run_collector_finish report_cmd "/srv/app/report.csv"
         {| did := Ran [(Stdout, "no ads")] (ExitCode 0); fs_at_close := ∅ |})
  = {| status := 500;
       payload := RunJson false
         ("no ads" +:+ nl +:+ "no ads" +:+ nl +:+ "CSV not generated") None |}.
Proof.
  destruct (C5_missing_artifact_appends_its_own_line report_cmd "/srv/app/report.csv"
              [(Stdout, "no ads")] ∅ eq_refl (lookup_empty _)) as [H _].
  exact H.
Defined.

(** C5, as stated, fails: the signal is a line of the log, and the program
    writes into the same log. A run that exits cleanly without its file,
    having written the line of a failed command, and a run that exits with
    status 1, having written the line [CSV not generated], are answered
    with the very same response. *)
Lemma C5_failed_run_answered_like_missing_artifact :
  within_max_buffer mimic_clean
  ∧ within_max_buffer mimic_failed
  ∧ fst (run_collector_finish report_cmd "/srv/app/report.csv"
           {| did := Ran mimic_clean (ExitCode 0); fs_at_close := ∅ |})
    = fst (run_collector_finish report_cmd "/srv/app/report.csv"
             {| did := Ran mimic_failed (ExitCode 1); fs_at_close := ∅ |}).
Proof. repeat split; vm_compute; reflexivity. Qed.

(** C6: when the command ends with a non-zero status or by a signal, the
    callback is given an error and the response is a failure (500,
    [success: false], no download reference) whose logs start with the
    accumulated log, every chunk the listeners were given, whole and in
    order; the file system is not consulted, so the response is the same
    whether or not the file exists. When the output fits [exec]'s buffers
    the listeners were given every chunk and the error is
    [Command failed: <command line>] followed by stderr. *)
Theorem C6_failed_run_reports_failure_with_logs cmd p chunks st fs :
  st ≠ ExitCode 0 ->
  exists e,
    error_of cmd (Ran chunks st) = Some e
    ∧ run_collector_finish cmd p {| did := Ran chunks st; fs_at_close := fs |}
      = ({| status := 500;
            payload := RunJson false
              (concat_strings (map snd (data_events (Ran chunks st)))
               +:+ buffer_copy (buffered Stdout (data_events (Ran chunks st)))
               +:+ buffer_copy (buffered Stderr (data_events (Ran chunks st)))
               +:+ nl +:+ "❌ Error: " +:+ message e) None |}, [])
    ∧ (within_max_buffer chunks ->
       data_events (Ran chunks st) = chunks
       ∧ message e
         = "Command failed: " +:+ cmd +:+ nl +:+ concat_strings (chunks_of Stderr chunks)).
Proof.
  intros Hst.
  destruct (error_of_failure cmd (Ran chunks st) (or_intror Hst)) as [e He].
  exists e. split; [exact He|]. split.
  - rewrite (finish_with_error cmd p (Ran chunks st) fs e He), live_log_concat.
    reflexivity.
  - intros Hfit. split; [now apply data_events_within|].
    rewrite (error_of_ran cmd chunks st Hfit Hst) in He. now injection He as <-.
Qed.

Lemma C6_failed_run_reports_failure_with_logs_witness :
  exists e,
    error_of report_cmd (Ran [(Stdout, "page 1 "); (Stderr, "Traceback")] (ExitCode 1))
    = Some e
    ∧ run_collector_finish report_cmd "/srv/app/report.csv"
        {| did := Ran [(Stdout, "page 1 "); (Stderr, "Traceback")] (ExitCode 1);
           fs_at_close := fs_with_report |}
      = ({| status := 500;
            payload := RunJson false
              ("page 1 Traceback" +:+ nl +:+ "page 1 " +:+ nl +:+ "Traceback"
               +:+ nl +:+ "❌ Error: " +:+ message e) None |}, [])
    ∧ message e = "Command failed: " +:+ report_cmd +:+ nl +:+ "Traceback".
Proof.
  destruct (C6_failed_run_reports_failure_with_logs report_cmd "/srv/app/report.csv"
              [(Stdout, "page 1 "); (Stderr, "Traceback")] (ExitCode 1) fs_with_report
              ltac:(discriminate)) as (e & He & Hfin & Hmsg).
  exists e. split; [exact He|]. split; [exact Hfin|].
  exact (proj2 (Hmsg eq_refl)).
Defined.

(** C7, as the code has it: a launch failure and a run failure alike
    reach the callback as its error argument, not as an exception, and are
    answered 500, [success: false], no download reference, with logs that
    end in the line [Error: <message>]. An interpreter that the shell could
    not start is answered exactly as a program that ran, wrote the same
    diagnostic on stderr and exited with 127; the response to a failed run
    is the same for every exit status other than 0 and for every signal;
    only the shell that could not be spawned is answered with logs that no
    failed run produces. *)
Theorem C7_failures_share_the_error_branch cmd p fs :
  (forall b, launch_failure b ∨ run_failure b ->
     exists e,
       error_of cmd b = Some e
       ∧ run_collector_finish cmd p {| did := b; fs_at_close := fs |}
         = ({| status := 500;
               payload := RunJson false
                 (live_log (data_events b)
                  +:+ buffer_copy (buffered Stdout (data_events b))
                  +:+ buffer_copy (buffered Stderr (data_events b))
                  +:+ nl +:+ "❌ Error: " +:+ message e) None |}, []))
  ∧ (forall diag,
       run_collector_finish cmd p {| did := InterpreterNotLaunched diag; fs_at_close := fs |}
       = run_collector_finish cmd p
           {| did := Ran [(Stderr, diag)] (ExitCode 127); fs_at_close := fs |})
  ∧ (forall chunks st1 st2, st1 ≠ ExitCode 0 -> st2 ≠ ExitCode 0 ->
       run_collector_finish cmd p {| did := Ran chunks st1; fs_at_close := fs |}
       = run_collector_finish cmd p {| did := Ran chunks st2; fs_at_close := fs |})
  ∧ (forall errno chunks st fs', line_feeds errno = 0 -> st ≠ ExitCode 0 ->
       fst (run_collector_finish cmd p {| did := ShellNotSpawned errno; fs_at_close := fs |})
       ≠ fst (run_collector_finish cmd p {| did := Ran chunks st; fs_at_close := fs' |})).
Proof.
  split; [|split; [|split]].
  - intros b Hfail. destruct (error_of_failure cmd b Hfail) as [e He].
    exists e. split; [exact He|].
    now rewrite (finish_with_error cmd p b fs e He).
  - intros diag. reflexivity.
  - intros chunks st1 st2 H1 H2.
    destruct (overflow 0 0 chunks) as [s|] eqn:Hov.
    + now rewrite !(finish_with_error cmd p _ fs _ (error_of_overflow cmd chunks _ s Hov)).
    + rewrite (finish_with_error cmd p _ fs _ (error_of_ran cmd chunks st1 Hov H1)).
      rewrite (finish_with_error cmd p _ fs _ (error_of_ran cmd chunks st2 Hov H2)).
      reflexivity.
  - intros errno chunks st fs' Herrno Hst Heq.
    destruct (failed_run_line_feeds cmd p chunks st fs' Hst) as (logs & Hlogs & Hfeeds).
    rewrite Hlogs in Heq.
    rewrite (finish_with_error cmd p (ShellNotSpawned errno) fs _ eq_refl) in Heq.
    injection Heq as Heq. rewrite <- Heq in Hfeeds.
    unfold error_signal in Hfeeds. simpl in Hfeeds.
    rewrite !line_feeds_app, Herrno in Hfeeds. simpl in Hfeeds. lia.
Qed.

Lemma C7_failures_share_the_error_branch_witness :
  launch_failure (ShellNotSpawned "ENOENT")
  ∧ exists e,
      error_of report_cmd (ShellNotSpawned "ENOENT") = Some e
      ∧ run_collector_finish report_cmd "/srv/app/report.csv"
          {| did := ShellNotSpawned "ENOENT"; fs_at_close := ∅ |}
        = ({| status := 500;
              payload := RunJson false
                (live_log [] +:+ buffer_copy "" +:+ buffer_copy ""
                 +:+ nl +:+ "❌ Error: " +:+ message e) None |}, []).
Proof.
  split; [exact I|].
  apply (proj1 (C7_failures_share_the_error_branch report_cmd "/srv/app/report.csv" ∅)
           (ShellNotSpawned "ENOENT")).
  left. exact I.
Defined.

(** C7, as stated, fails: the interpreter that could not be started (a
    launch failure) and a program that ran, wrote the same line on stderr
    and exited with 127 (a run failure) get the very same response; and so
    do two runs that differ in their exit status only. *)
Lemma C7_launch_failure_same_response_as_run_failure :
  launch_failure (InterpreterNotLaunched not_found_diag)
  ∧ run_failure (Ran [(Stderr, not_found_diag)] (ExitCode 127))
  ∧ run_collector_finish report_cmd "/srv/app/report.csv"
      {| did := InterpreterNotLaunched not_found_diag; fs_at_close := ∅ |}
    = run_collector_finish report_cmd "/srv/app/report.csv"
        {| did := Ran [(Stderr, not_found_diag)] (ExitCode 127); fs_at_close := ∅ |}
  ∧ run_collector_finish report_cmd "/srv/app/report.csv"
      {| did := Ran [(Stderr, "boom")] (ExitCode 1); fs_at_close := ∅ |}
    = run_collector_finish report_cmd "/srv/app/report.csv"
        {| did := Ran [(Stderr, "boom")] (ExitCode 2); fs_at_close := ∅ |}.
Proof.
  split; [exact I|]. split; [discriminate|]. split; reflexivity.
Qed.

Section BigOutput.

Lemma letters_succ n : letters (N.succ n) = String "a"%char (letters n).
Proof. unfold letters. now rewrite N.iter_succ. Qed.

Lemma letters_snoc n : letters (N.succ n) = letters n +:+ "a".
Proof.
  induction n as [|n IH] using N.peano_ind; [reflexivity|].
  rewrite letters_succ, IH at 1. now rewrite (letters_succ n), app_cons.
Qed.

Lemma byte_length_letters n : byte_length (letters n) = n.
Proof.
  induction n as [|n IH] using N.peano_ind; [reflexivity|].
  rewrite letters_succ. unfold byte_length in *. simpl String.length.
  rewrite Nat2N.inj_succ. now rewrite IH.
Qed.

(** Cutting letters leaves letters. *)
Lemma js_slice_letters units n : js_slice units (letters n) = letters (N.min units n).
Proof.
  unfold js_slice. revert units.
  induction n as [|n IH] using N.peano_ind; intros units.
  - now rewrite N.min_0_r.
  - rewrite letters_succ. simpl.
    destruct (units =? 0)%N eqn:Hu.
    + apply N.eqb_eq in Hu. subst units. now rewrite N.min_0_l.
    + apply N.eqb_neq in Hu. rewrite IH.
      replace (N.min units (N.succ n)) with (N.succ (N.min (units - 1) n)) by lia.
      now rewrite letters_succ.
Qed.

(** The response to a run that writes, in one chunk on stdout, more than
    [exec] can hold. *)
Lemma finish_one_chunk_too_big cmd p st fs data :
  (max_buffer < byte_length data)%N ->
  run_collector_finish cmd p {| did := Ran [(Stdout, data)] st; fs_at_close := fs |}
  = ({| status := 500;
        payload := RunJson false
          (data +:+ nl +:+ js_slice max_buffer data
           +:+ nl +:+ "❌ Error: stdout maxBuffer length exceeded") None |}, []).
Proof.
  intros Hbig.
  assert ((0 + byte_length data <=? max_buffer)%N = false) as Hfit0
    by (apply N.leb_gt; lia).
  assert ((byte_length data <=? max_buffer)%N = false) as Hfit
    by (apply N.leb_gt; lia).
  assert (overflow 0 0 [(Stdout, data)] = Some Stdout) as Hov
    by (cbn [overflow]; now rewrite Hfit0).
  rewrite (finish_with_error cmd p _ fs _ (error_of_overflow cmd _ st Stdout Hov)).
  unfold data_events, buffered. cbn [written delivered]. rewrite Hfit0.
  cbn [buffered_from stream_eqb]. rewrite Hfit.
  rewrite live_log_concat. cbn [map snd concat_strings]. rewrite app_empty_r.
  assert (js_slice max_buffer data ≠ "") as Hne.
  { apply js_slice_not_empty; [reflexivity|].
    intros ->. unfold byte_length in Hbig. simpl in Hbig. lia. }
  rewrite (buffer_copy_not_empty _ Hne).
  change (buffer_copy "") with "". unfold error_signal. cbn [message buffer_exceeded stream_name].
  now rewrite !app_assoc_s, ?app_empty_l.
Qed.

Lemma finish_letters_too_many cmd p st fs n :
  (max_buffer < n)%N ->
  run_collector_finish cmd p {| did := Ran [(Stdout, letters n)] st; fs_at_close := fs |}
  = ({| status := 500;
        payload := RunJson false
          (letters n +:+ nl +:+ letters max_buffer
           +:+ nl +:+ "❌ Error: stdout maxBuffer length exceeded") None |}, []).
Proof.
  intros Hbig.
  rewrite finish_one_chunk_too_big by now rewrite byte_length_letters.
  rewrite js_slice_letters. now replace (N.min max_buffer n) with max_buffer by lia.
Qed.

End BigOutput.




(* ===================================================================== *)
(** ** C8: the file of an earlier run                                     *)
(* ===================================================================== *)



(* ===================================================================== *)
(** ** The log while the child writes                                     *)
(* ===================================================================== *)

(** The listeners, run over all the events, end with the [logs] the
    callback starts from. *)
Lemma listeners_reach_live_log evs :
  observable evs {| pending := []; logs_so_far := live_log evs |}.
Proof.
  unfold observable, live_log. generalize "" as acc.
  induction evs as [|ev rest IH]; intros acc; simpl.
  - apply rtc_refl.
  - eapply rtc_l; [apply data_arrives | apply IH].
Qed.

(* ===================================================================== *)
(** ** Beyond the claims: the POST route, case by case                    *)
(* ===================================================================== *)

Section Cases.

(** What the route ends with: the reply of line 23, an exception, or the
    response of the callback. *)
Lemma run_collector_shapes cfg req fs world :
  (truthy (url req) = false
   ∧ outcome_of (run_collector cfg req fs world)
     = Responds {| status := 400; payload := ErrorJson "URL is required" |})
  ∨ (truthy (url req) = true
     ∧ exists err, outcome_of (run_collector cfg req fs world) = Throws err)
  ∨ (truthy (url req) = true
     ∧ exists cmd p r,
         outcome_of (run_collector cfg req fs world)
         = Responds (fst (run_collector_finish cmd p r))).
Proof.
  unfold outcome_of.
  destruct (next (run_collector_start cfg req fs)) as [resp|err|cmd p] eqn:Hnext.
  - destruct (start_cases cfg req fs)
      as [[Hu Hst]|[(_ & err & _ & Hst)|[(_ & q & _ & _ & Hst)|[(_ & q & c & _ & _ & Hst)
         |(_ & q & _ & _ & Hst)]]]]; rewrite Hst in Hnext;
      try destruct (contains_nul (build_cmd cfg req q)); try discriminate.
    left. split; [exact Hu|]. unfold run_collector. now rewrite Hst.
  - destruct (truthy (url req)) eqn:Hu.
    + right. left. split; [reflexivity|]. exists err.
      now rewrite (run_collector_thrown cfg req fs world err Hnext).
    + rewrite (start_without_url cfg req fs Hu) in Hnext. discriminate.
  - destruct (truthy (url req)) eqn:Hu.
    + right. right. split; [reflexivity|]. do 3 eexists.
      now rewrite (run_collector_running cfg req fs world cmd p Hnext).
    + rewrite (start_without_url cfg req fs Hu) in Hnext. discriminate.
Qed.

Lemma finish_not_rejection cmd p r :
  fst (run_collector_finish cmd p r)
  ≠ {| status := 400; payload := ErrorJson "URL is required" |}.
Proof.
  destruct (finish_cases cmd p r) as [(e & _ & Hfin)|[(_ & _ & Hfin)|(_ & _ & Hfin)]];
    rewrite Hfin; discriminate.
Qed.

End Cases.

(** X1: the route answers 400 [URL is required] exactly when [url] is
    falsy, be it missing, [null], [false], [0] or the empty string; any
    other value lets the request through. *)
Theorem X1_rejected_exactly_when_url_is_falsy cfg req fs world :
  outcome_of (run_collector cfg req fs world)
  = Responds {| status := 400; payload := ErrorJson "URL is required" |}
  <-> truthy (url req) = false.
Proof.
  destruct (run_collector_shapes cfg req fs world)
    as [[Hu Hout]|[(Hu & err & Hout)|(Hu & cmd & p & r & Hout)]]; rewrite Hout, Hu.
  - split; reflexivity.
  - split; discriminate.
  - split; [|discriminate]. intros [= H]. now destruct (finish_not_rejection cmd p r).
Qed.

(** X2: a [csvFile] that is truthy and not a string ([true], a number
    other than 0) makes [path.join] throw: the handler ends with that
    exception, having asked nothing of the file system and started
    nothing. *)
Theorem X2_csv_file_of_wrong_type_throws_first cfg req fs world :
  truthy (url req) = true ->
  truthy (csvFile req) = true ->
  (forall name, csvFile req ≠ JStr name) ->
  run_collector cfg req fs world = (Throws "ERR_INVALID_ARG_TYPE", [], [])
  ∧ fs_after (run_collector_start cfg req fs) = fs.
Proof.
  intros Hu Hc Hstr.
  assert (final_csv_file cfg req = inr "ERR_INVALID_ARG_TYPE") as Hfinal.
  { unfold final_csv_file. rewrite Hc.
    destruct (csvFile req) as [| |b|z|name]; try reflexivity.
    now destruct (Hstr name). }
  unfold run_collector, run_collector_start. rewrite Hu, Hfinal. simpl.
  split; reflexivity.
Qed.

Lemma X2_csv_file_of_wrong_type_throws_first_witness :
  run_collector cfg0 (plain_request "http://a.example" (JNum (js_int 7))) fs_with_report dying_world
  = (Throws "ERR_INVALID_ARG_TYPE", [], []).
Proof.
  apply (X2_csv_file_of_wrong_type_throws_first cfg0
           (plain_request "http://a.example" (JNum (js_int 7))) fs_with_report dying_world).
  - reflexivity.
  - reflexivity.
  - intros name. discriminate.
Defined.

(** X3: when the expected path is a directory, [unlinkSync] throws: the
    handler ends with that exception after the existence check and the
    failed removal, the directory is still there, and no command is
    started. *)
Theorem X3_directory_at_expected_path_stops_the_request cfg req fs p world :
  truthy (url req) = true ->
  final_csv_file cfg req = inl p ->
  fs !! p = Some Fs.Directory ->
  run_collector cfg req fs world
  = (Throws "EISDIR", [Fs.OpExists p; Fs.OpUnlink p], [])
  ∧ fs_after (run_collector_start cfg req fs) = fs.
Proof.
  intros Hu Hp Hfs.
  unfold run_collector, run_collector_start. rewrite Hu, Hp. simpl.
  unfold Fs.existsSync, Fs.unlinkSync. rewrite Hfs. simpl.
  split; reflexivity.
Qed.

Lemma X3_directory_at_expected_path_stops_the_request_witness :
  run_collector cfg0 report_request fs_with_directory dying_world
  = (Throws "EISDIR",
     [Fs.OpExists "/srv/app/report.csv"; Fs.OpUnlink "/srv/app/report.csv"], [])
  ∧ fs_after (run_collector_start cfg0 report_request fs_with_directory) = fs_with_directory.
Proof.
  apply (X3_directory_at_expected_path_stops_the_request cfg0 report_request
           fs_with_directory "/srv/app/report.csv" dying_world).
  - reflexivity.
  - vm_compute. reflexivity.
  - vm_compute. reflexivity.
Defined.

(** X4: the handler itself removes at most one entry, and only a regular
    file at the expected path: every other path, and a directory at the
    expected path, is after the synchronous body what it was before; the
    handler creates nothing. *)
Theorem X4_only_the_expected_file_can_disappear cfg req fs q :
  fs_after (run_collector_start cfg req fs) !! q = fs !! q
  ∨ (fs_after (run_collector_start cfg req fs) !! q = None
     ∧ final_csv_file cfg req = inl q
     ∧ exists content, fs !! q = Some (Fs.File content)).
Proof.
  destruct (start_cases cfg req fs)
    as [[_ Hst]|[(_ & err & _ & Hst)|[(_ & p & _ & _ & Hst)|[(_ & p & c & Hp & Hfs & Hst)
       |(_ & p & _ & _ & Hst)]]]]; rewrite Hst;
    try destruct (contains_nul (build_cmd cfg req p)); simpl; try (now left).
  - destruct (decide (p = q)) as [->|Hne].
    + right. rewrite lookup_delete_eq. eauto.
    + left. now apply lookup_delete_ne.
  - destruct (decide (p = q)) as [->|Hne].
    + right. rewrite lookup_delete_eq. eauto.
    + left. now apply lookup_delete_ne.
Qed.

(** X5: a command is started exactly when the handler goes on to wait
    for it: either the synchronous body ends the request (a reply or an
    exception) and nothing was started, or it leaves the request running
    and exactly one [exec] was made, of the command the callback will
    report on. *)
Theorem X5_one_command_per_running_request cfg req fs :
  (spawned (run_collector_start cfg req fs) = []
   ∧ forall cmd p, next (run_collector_start cfg req fs) ≠ Running cmd p)
  ∨ (exists cmd p,
       spawned (run_collector_start cfg req fs) = [Exec cmd]
       ∧ next (run_collector_start cfg req fs) = Running cmd p
       ∧ final_csv_file cfg req = inl p ∧ cmd = command_line cfg req p).
Proof.
  destruct (start_cases cfg req fs)
    as [[_ Hst]|[(_ & err & _ & Hst)|[(_ & p & Hp & _ & Hst)|[(_ & p & c & Hp & _ & Hst)
       |(_ & p & _ & _ & Hst)]]]]; rewrite Hst;
    try destruct (contains_nul (build_cmd cfg req p)); simpl;
    try (left; split; [reflexivity | discriminate]);
    right; exists (build_cmd cfg req p), p;
    repeat split; try assumption; apply build_cmd_command_line.
Qed.

(** X6: the callback reports success, with status 200 and the reference
    [/download/<basename of the expected path>], exactly when the command
    exited with status 0, its output fitted [exec]'s buffers, and
    something exists at the expected path when it closed; in every other
    case it answers 500 with [success: false] and no reference. *)
Theorem X6_success_exactly_on_clean_exit_with_file cmd p r :
  ((exists logs,
      fst (run_collector_finish cmd p r)
      = {| status := 200;
           payload := RunJson true logs (Some ("/download/" +:+ Path.basename p)) |})
   <-> ((exists chunks, did r = Ran chunks (ExitCode 0) ∧ within_max_buffer chunks)
        ∧ is_Some (fs_at_close r !! p)))
  ∧ ((exists logs,
        fst (run_collector_finish cmd p r)
        = {| status := 500; payload := RunJson false logs None |})
     <-> ¬ ((exists chunks, did r = Ran chunks (ExitCode 0) ∧ within_max_buffer chunks)
            ∧ is_Some (fs_at_close r !! p))).
Proof.
  rewrite <- (error_of_none cmd (did r)).
  destruct (finish_cases cmd p r)
    as [(e & He & Hfin)|[(He & Hfs & Hfin)|(He & Hfs & Hfin)]]; rewrite Hfin; simpl.
  - split; split.
    + intros [logs H]. discriminate.
    + intros [Hnone _]. congruence.
    + intros _ [Hnone _]. congruence.
    + intros _. eexists. reflexivity.
  - split; split.
    + intros [logs H]. discriminate.
    + intros [_ [entry Hentry]]. congruence.
    + intros _ [_ [entry Hentry]]. congruence.
    + intros _. eexists. reflexivity.
  - split; split.
    + intros _. now split.
    + intros _. eexists. reflexivity.
    + intros [logs H]. discriminate.
    + intros Hn. destruct Hn. now split.
Qed.

(** X7: whatever the request that reaches the handler, the file system
    and the command do, what the client is answered has one of four
    shapes: 400 with [{ error: "URL is required" }]; 200 with
    [success: true] and a download reference; 500 with [success: false]
    and no reference; and 500 with Express's error page, when the handler
    ends with an exception. *)
Theorem X7_status_success_and_reference_agree cfg req fs world :
  coherent (answer (outcome_of (run_collector cfg req fs world))).
Proof.
  destruct (run_collector_shapes cfg req fs world)
    as [[_ Hout]|[(_ & err & Hout)|(_ & cmd & p & r & Hout)]]; rewrite Hout; simpl.
  - split; reflexivity.
  - reflexivity.
  - destruct (finish_cases cmd p r) as [(e & _ & Hfin)|[(_ & _ & Hfin)|(_ & _ & Hfin)]];
      rewrite Hfin; reflexivity.
Qed.

(* ===================================================================== *)
(** ** Beyond the claims: what of the body is read                        *)
(* ===================================================================== *)

Section BodyFacts.

Lemma truthy_omit_falsy v : truthy (omit_falsy v) = truthy v.
Proof. unfold omit_falsy. destruct (truthy v) eqn:H; [exact H | reflexivity]. Qed.

Lemma omit_falsy_truthy v : truthy v = true -> omit_falsy v = v.
Proof. unfold omit_falsy. now intros ->. Qed.

Lemma final_csv_file_without_falsy cfg req :
  final_csv_file cfg (without_falsy req) = final_csv_file cfg req.
Proof.
  unfold final_csv_file, without_falsy. simpl. rewrite truthy_omit_falsy.
  destruct (truthy (csvFile req)) eqn:H; [|reflexivity].
  now rewrite (omit_falsy_truthy _ H).
Qed.

Lemma build_cmd_without_falsy cfg req p :
  truthy (url req) = true ->
  build_cmd cfg (without_falsy req) p = build_cmd cfg req p.
Proof.
  intros Hu. unfold build_cmd, without_falsy. simpl.
  rewrite !truthy_omit_falsy, (omit_falsy_truthy _ Hu).
  destruct (truthy (maxPages req)) eqn:Hm, (truthy (headless req)) eqn:Hh;
    rewrite ?(omit_falsy_truthy _ Hm); reflexivity.
Qed.

Lemma start_without_falsy cfg req fs :
  run_collector_start cfg (without_falsy req) fs = run_collector_start cfg req fs.
Proof.
  unfold run_collector_start.
  rewrite final_csv_file_without_falsy.
  change (url (without_falsy req)) with (omit_falsy (url req)).
  rewrite truthy_omit_falsy.
  destruct (truthy (url req)) eqn:Hu; [|reflexivity]. simpl.
  destruct (final_csv_file cfg req) as [p|err]; [|reflexivity].
  now rewrite (build_cmd_without_falsy cfg req p Hu).
Qed.

Lemma request_of_body_insert body k v :
  ¬ read_by_handler k -> request_of_body (<[k:=v]> body) = request_of_body body.
Proof.
  intros Hk. unfold request_of_body, field.
  rewrite !lookup_insert_ne; [reflexivity | | | |];
    intros ->; apply Hk; unfold read_by_handler; auto.
Qed.

End BodyFacts.

(** X8: a field sent with a falsy value ([null], [false], [0], the empty
    string) counts as not sent: the route does the same, in answer, in
    file-system operations and in the command it starts, as for the
    request without that field. *)
Theorem X8_falsy_fields_count_as_missing cfg req fs world :
  run_collector cfg (without_falsy req) fs world = run_collector cfg req fs world.
Proof. unfold run_collector. now rewrite start_without_falsy. Qed.

(** X9: only the members [url], [maxPages], [csvFile] and [headless] of
    the body are read: adding or changing any other member (such as the
    [max_pages] and [csv] of the README) changes nothing of what the route
    does. *)
Theorem X9_other_members_of_the_body_are_ignored cfg body k v fs world :
  ¬ read_by_handler k ->
  post_run_collector cfg (<[k:=v]> body) fs world = post_run_collector cfg body fs world.
Proof.
  intros Hk. unfold post_run_collector. now rewrite request_of_body_insert.
Qed.

Lemma X9_other_members_of_the_body_are_ignored_witness :
  ¬ read_by_handler "max_pages"
  ∧ post_run_collector cfg0
      (<["max_pages" := JNum (js_int 5)]> {[ "url" := JStr "http://a.example" ]}) ∅ dying_world
    = post_run_collector cfg0 {[ "url" := JStr "http://a.example" ]} ∅ dying_world.
Proof.
  assert (¬ read_by_handler "max_pages") as Hk.
  { intros [H|[H|[H|H]]]; discriminate H. }
  split; [exact Hk|].
  apply (X9_other_members_of_the_body_are_ignored cfg0
           {[ "url" := JStr "http://a.example" ]} "max_pages" (JNum (js_int 5)) ∅ dying_world Hk).
Defined.

(* ===================================================================== *)
(** ** Beyond the claims: the log seen and the log reported               *)
(* ===================================================================== *)

(** While the listeners run, what is in [logs] and what is still to come
    make up the whole output. *)
Lemma observable_rest evs s :
  observable evs s ->
  logs_so_far s +:+ concat_strings (map snd (pending s)) = concat_strings (map snd evs).
Proof.
  unfold observable. revert s.
  apply (rtc_ind_r (fun s =>
           logs_so_far s +:+ concat_strings (map snd (pending s))
           = concat_strings (map snd evs))).
  - reflexivity.
  - intros mid final _ Hstep IH.
    inversion Hstep as [ev rest logs Hmid Hfinal]; subst mid final. simpl in *.
    rewrite <- IH. unfold on_data. now rewrite app_assoc_s.
Qed.

(** X10: nothing that was once in the log is taken back or changed: every
    state of [logs] seen while the child writes is the beginning of the
    [logs] of the response. *)
Theorem X10_log_seen_is_the_start_of_the_log_reported cmd p r s :
  observable (data_events (did r)) s ->
  exists success rest reference,
    payload (fst (run_collector_finish cmd p r))
    = RunJson success (logs_so_far s +:+ rest) reference.
Proof.
  intros Hobs. apply observable_rest in Hobs.
  rewrite <- (live_log_concat (data_events (did r))) in Hobs.
  destruct (finish_cases cmd p r)
    as [(e & _ & Hfin)|[(_ & _ & Hfin)|(_ & _ & Hfin)]];
    rewrite Hfin; cbn [fst payload]; rewrite append_buffers_copy, <- Hobs;
    do 3 eexists; rewrite ?app_assoc_s; reflexivity.
Qed.

Lemma X10_log_seen_is_the_start_of_the_log_reported_witness :
  exists success rest reference,
    payload (fst (run_collector_finish report_cmd "/srv/app/report.csv"
                    {| did := Ran [(Stdout, "ab"); (Stderr, "cd")] (ExitCode 1);
                       fs_at_close := ∅ |}))
    = RunJson success ("ab" +:+ rest) reference.
Proof.
  apply (X10_log_seen_is_the_start_of_the_log_reported report_cmd "/srv/app/report.csv"
           {| did := Ran [(Stdout, "ab"); (Stderr, "cd")] (ExitCode 1); fs_at_close := ∅ |}
           {| pending := [(Stderr, "cd")]; logs_so_far := "ab" |}).
  apply rtc_once. exact (data_arrives (Stdout, "ab") [(Stderr, "cd")] "").
Defined.

(* ===================================================================== *)
(** ** Beyond the claims: the paths the routes work on                    *)
(* ===================================================================== *)

Module PathForms.
Import Path PathFacts.

Lemma push_segment_plain stack seg :
  Forall plain stack -> split_slash seg = [seg] ->
  Forall plain (push_segment false stack seg).
Proof.
  intros Hstack Hseg. unfold push_segment, is_empty, is_dot, is_dotdot.
  destruct (String.eqb seg "") eqn:He; [exact Hstack|].
  destruct (String.eqb seg ".") eqn:Hd; [exact Hstack|]. simpl.
  destruct (String.eqb seg "..") eqn:Hdd.
  - destruct stack as [|top below]; [constructor|].
    destruct (String.eqb top ".."); [exact Hstack|].
    now inversion Hstack.
  - apply String.eqb_neq in He, Hd, Hdd.
    constructor; [|exact Hstack]. repeat split; assumption.
Qed.

Lemma fold_push_plain segs stack :
  Forall plain stack -> Forall (fun seg => split_slash seg = [seg]) segs ->
  Forall plain (fold_left (push_segment false) segs stack).
Proof.
  revert stack. induction segs as [|seg rest IH]; intros stack Hstack Hsegs; [exact Hstack|].
  inversion Hsegs as [|? ? Hseg Hrest]; subst. simpl.
  apply IH; [now apply push_segment_plain | exact Hrest].
Qed.

(** Below the root of the file system, normalising leaves plain segments
    only. *)
Lemma normalize_segments_plain s :
  Forall plain (normalize_segments false (split_slash s)).
Proof.
  unfold normalize_segments. apply Forall_forall. intros seg Hin.
  apply list_elem_of_In, in_rev, list_elem_of_In in Hin.
  pose proof (fold_push_plain (split_slash s) [] (Forall_nil_2 _) (split_slash_segments s))
    as Hall.
  rewrite Forall_forall in Hall. now apply Hall.
Qed.

(** [path.normalize] of an absolute path. *)
Lemma normalize_absolute s :
  starts_with_slash s = true ->
  exists segs (trailing : bool),
    Forall plain segs ∧ (segs = [] -> trailing = false)
    ∧ normalize s = absolute segs +:+ (if trailing then "/" else "").
Proof.
  intros Habs. unfold normalize. rewrite Habs.
  assert (is_empty s = false) as -> by (destruct s; [discriminate | reflexivity]).
  simpl negb.
  pose proof (normalize_segments_plain s) as Hplain.
  destruct (is_empty (join_slash (normalize_segments false (split_slash s)))) eqn:He.
  - exists [], false. repeat split; constructor.
  - exists (normalize_segments false (split_slash s)), (ends_with_slash s).
    split; [exact Hplain|]. split.
    + intros Hnil. rewrite Hnil in He. discriminate.
    + unfold absolute. destruct (ends_with_slash s).
      * now rewrite app_assoc_s.
      * now rewrite app_empty_r.
Qed.

Lemma starts_with_slash_app a b :
  starts_with_slash a = true -> starts_with_slash (a +:+ b) = true.
Proof. destruct a; [discriminate | now rewrite app_cons]. Qed.

(** [path.join] of an absolute directory and any name. *)
Lemma join_absolute root name :
  starts_with_slash root = true ->
  exists segs (trailing : bool),
    Forall plain segs ∧ (segs = [] -> trailing = false)
    ∧ join root name = absolute segs +:+ (if trailing then "/" else "").
Proof.
  intros Habs. unfold join.
  assert (is_empty root = false) as -> by (destruct root; [discriminate | reflexivity]).
  destruct (is_empty name).
  - now apply normalize_absolute.
  - now apply normalize_absolute, starts_with_slash_app.
Qed.

Lemma normalize_not_empty s : normalize s ≠ "".
Proof.
  unfold normalize. destruct (is_empty s); [discriminate|].
  destruct (is_empty (join_slash (normalize_segments (negb (starts_with_slash s))
                                    (split_slash s)))) eqn:He.
  - destruct (starts_with_slash s), (ends_with_slash s); discriminate.
  - apply String.eqb_neq in He.
    destruct (join_slash (normalize_segments (negb (starts_with_slash s)) (split_slash s)))
      as [|c body]; [congruence|].
    destruct (starts_with_slash s), (ends_with_slash s);
      rewrite ?app_cons; discriminate.
Qed.

Lemma join_not_empty a b : join a b ≠ "".
Proof.
  unfold join. destruct (is_empty a), (is_empty b);
    [discriminate | apply normalize_not_empty ..].
Qed.

(** The last segment of a path has no separator in it. *)
Lemma basename_no_slash p : split_slash (basename p) = [basename p].
Proof.
  unfold basename.
  destruct (last (filter (fun seg : string => seg ≠ "") (split_slash p))) as [seg|] eqn:Hlast;
    [|reflexivity].
  simpl. apply last_Some_elem_of, list_elem_of_filter in Hlast as [_ Hin].
  pose proof (split_slash_segments p) as Hall. rewrite Forall_forall in Hall.
  now apply Hall.
Qed.

End PathForms.

Section References.

(** A finished run whose expected path is the root followed by one plain
    name hands out a reference that the download route resolves to that
    very path. *)
Lemma reference_of_flat_path cfg req fs world root_segs name chunks content :
  let p := Path.absolute (root_segs ++ [name]) in
  let r := world (build_cmd cfg req p) (fs_after (run_collector_start cfg req fs)) in
  dirname cfg = Path.absolute root_segs ->
  Forall Path.plain root_segs -> Path.plain name ->
  is_dotfile name = false -> route_safe name = true ->
  truthy (url req) = true ->
  final_csv_file cfg req = inl p ->
  fs !! p ≠ Some Fs.Directory ->
  contains_nul (build_cmd cfg req p) = false ->
  did r = Ran chunks (ExitCode 0) ->
  within_max_buffer chunks ->
  fs_at_close r !! p = Some (Fs.File content) ->
  (exists logs,
     outcome_of (run_collector cfg req fs world)
     = Responds {| status := 200;
                   payload := RunJson true logs (Some ("/download/" +:+ name)) |})
  ∧ download_param ("/download/" +:+ name) = Some name
  ∧ download_file cfg name (fs_at_close r)
    = ({| status := 200; payload := Attachment p |}, [Fs.OpExists p; Fs.OpSend p]).
Proof.
  intros p r Hroot Hplain Hname Hdot Hsafe Hu Hfinal Hdir Hnul Hdid Hfit Hfile.
  destruct (start_running cfg req fs p Hu Hfinal Hdir Hnul) as [Hnext _].
  pose proof (PlainNames.basename_absolute root_segs name Hplain Hname) as Hbase.
  fold p in Hbase.
  split; [|split].
  - unfold outcome_of. rewrite (run_collector_running cfg req fs world _ p Hnext).
    simpl. fold r. destruct r as [b fs_close]. simpl in Hdid, Hfile. subst b.
    rewrite (finish_clean_present _ p chunks fs_close Hfit) by eauto. simpl.
    rewrite Hbase. eexists. reflexivity.
  - apply download_param_of_reference; [assumption | apply Hname | apply Hname].
  - unfold download_file. rewrite Hroot, (PlainNames.join_plain root_segs name Hplain Hname).
    fold p. assert (Fs.existsSync (fs_at_close r) p = true) as ->
      by (apply existsSync_true; eauto).
    unfold res_download. now rewrite Hbase, Hdot, Hfile.
Qed.

End References.

(** X11: whatever name the caller sends, the path the routes work on is
    absolute and normalised: the separator, then segments none of which is
    empty, [.] or [..], then at most one trailing separator. A name can
    move the path out of the root, it cannot make it relative or leave a
    [..] in it. *)
Theorem X11_resolved_path_is_absolute_and_normalised cfg req name :
  Path.starts_with_slash (dirname cfg) = true ->
  csvFile req = JStr name ->
  name ≠ "" ->
  exists segs (trailing : bool),
    Forall Path.plain segs ∧ (segs = [] -> trailing = false)
    ∧ final_csv_file cfg req
      = inl (Path.absolute segs +:+ (if trailing then "/" else ""))
    ∧ Path.join (dirname cfg) name
      = Path.absolute segs +:+ (if trailing then "/" else "").
Proof.
  intros Habs Hcsv Hname.
  destruct (PathForms.join_absolute (dirname cfg) name Habs)
    as (segs & trailing & Hplain & Hnil & Hjoin).
  exists segs, trailing. repeat split; try assumption.
  now rewrite (final_csv_file_named cfg req name Hcsv Hname), Hjoin.
Qed.

Lemma X11_resolved_path_is_absolute_and_normalised_witness :
  exists segs (trailing : bool),
    Forall Path.plain segs ∧ (segs = [] -> trailing = false)
    ∧ final_csv_file cfg0 traversal_request
      = inl (Path.absolute segs +:+ (if trailing then "/" else ""))
    ∧ Path.join (dirname cfg0) traversal_name
      = Path.absolute segs +:+ (if trailing then "/" else "").
Proof.
  apply (X11_resolved_path_is_absolute_and_normalised cfg0 traversal_request traversal_name).
  - reflexivity.
  - reflexivity.
  - discriminate.
Defined.





(** X14: the configuration never holds an empty string: a variable that
    is missing or empty gives way to its default ([python], and the two
    files in the directory of the service), and a variable that is set is
    taken as it is. *)
Theorem X14_configuration_is_never_empty env dir :
  PYTHON_PATH (load_config env dir) ≠ ""
  ∧ PYTHON_SCRIPT (load_config env dir) ≠ ""
  ∧ CSV_FILE (load_config env dir) ≠ ""
  ∧ (forall v, v ≠ "" ->
       (env !! "PYTHON_PATH" = Some v -> PYTHON_PATH (load_config env dir) = v)
       ∧ (env !! "PYTHON_SCRIPT" = Some v -> PYTHON_SCRIPT (load_config env dir) = v)
       ∧ (env !! "CSV_FILE" = Some v -> CSV_FILE (load_config env dir) = v)).
Proof.
  assert (forall o d, d ≠ "" -> or_default o d ≠ "") as Hdef.
  { intros [s|] d Hd; simpl; [|exact Hd].
    destruct (String.eqb s "") eqn:He; [exact Hd | now apply String.eqb_neq]. }
  assert (forall v d, v ≠ "" -> or_default (Some v) d = v) as Hset.
  { intros v d Hv. simpl. apply String.eqb_neq in Hv. now rewrite Hv. }
  unfold load_config. simpl. repeat split.
  - apply Hdef. discriminate.
  - apply Hdef, PathForms.join_not_empty.
  - apply Hdef, PathForms.join_not_empty.
  - intros ->. now apply Hset.
  - intros ->. now apply Hset.
  - intros ->. now apply Hset.
Qed.

(** X15: a download reference the service hands out is [/download/]
    followed by the last segment of the expected path, which has no
    separator in it; when that segment is not empty and is made of
    letters, digits, dots, dashes and underscores, Express reads the
    [:filename] of the reference back as that segment. *)
Theorem X15_reference_is_one_route_parameter cmd p r success logs reference :
  payload (fst (run_collector_finish cmd p r)) = RunJson success logs (Some reference) ->
  reference = "/download/" +:+ Path.basename p
  ∧ Path.split_slash (Path.basename p) = [Path.basename p]
  ∧ (Path.basename p ≠ "" -> route_safe (Path.basename p) = true ->
     download_param reference = Some (Path.basename p)).
Proof.
  intros Hpay.
  assert (reference = "/download/" +:+ Path.basename p) as ->.
  { destruct (finish_cases cmd p r)
      as [(e & _ & Hfin)|[(_ & _ & Hfin)|(_ & _ & Hfin)]];
      rewrite Hfin in Hpay; simpl in Hpay; congruence. }
  split; [reflexivity|]. split; [apply PathForms.basename_no_slash|].
  intros Hne Hsafe. apply download_param_of_reference;
    [assumption | apply PathForms.basename_no_slash | assumption].
Qed.

Lemma X15_reference_is_one_route_parameter_witness :
  "/download/report.csv" = "/download/" +:+ Path.basename "/srv/app/out/report.csv"
  ∧ Path.split_slash (Path.basename "/srv/app/out/report.csv")
    = [Path.basename "/srv/app/out/report.csv"]
  ∧ (Path.basename "/srv/app/out/report.csv" ≠ "" ->
     route_safe (Path.basename "/srv/app/out/report.csv") = true ->
     download_param "/download/report.csv"
     = Some (Path.basename "/srv/app/out/report.csv")).
Proof.
  apply (X15_reference_is_one_route_parameter nested_cmd "/srv/app/out/report.csv"
           (nested_world nested_cmd ∅) true ("done" +:+ nl +:+ "done")
           "/download/report.csv").
  vm_compute. reflexivity.
Defined.

(** X16: one request, one path: while a request is running, the path
    whose old file was removed, the path written after [--csv-file] in the
    command, and the path whose existence decides between success and
    failure are the same, and the route asks the file system about no
    other. *)
Theorem X16_removed_passed_and_checked_path_is_one cfg req fs world cmd p :
  next (run_collector_start cfg req fs) = Running cmd p ->
  final_csv_file cfg req = inl p
  ∧ cmd = command_line cfg req p
  ∧ Forall (fun o => Fs.touched o = p) (ops_of (run_collector cfg req fs world))
  ∧ calls_of (run_collector cfg req fs world) = [Exec cmd].
Proof.
  intros Hnext.
  destruct (start_running_final cfg req fs cmd p Hnext) as (Hfinal & -> & Hspawn).
  rewrite (run_collector_running cfg req fs world _ p Hnext).
  unfold ops_of, calls_of. simpl.
  split; [exact Hfinal|]. split; [apply build_cmd_command_line|].
  split; [|exact Hspawn].
  apply Forall_app. split; [now apply start_touches_final | apply finish_touches_final].
Qed.

Lemma X16_removed_passed_and_checked_path_is_one_witness :
  final_csv_file cfg0 report_request = inl "/srv/app/report.csv"
  ∧ report_cmd = command_line cfg0 report_request "/srv/app/report.csv"
  ∧ Forall (fun o => Fs.touched o = "/srv/app/report.csv")
      (ops_of (run_collector cfg0 report_request fs_with_report dying_world))
  ∧ calls_of (run_collector cfg0 report_request fs_with_report dying_world)
    = [Exec report_cmd].
Proof.
  apply (X16_removed_passed_and_checked_path_is_one cfg0 report_request fs_with_report
           dying_world report_cmd "/srv/app/report.csv").
  vm_compute. reflexivity.
Defined.

